(** * clean_data: normalisation and labelling of raw text records

    A shallow embedding of [homework/clean_data.py] and the properties of
    its normaliser, label mapper, key filler and entry point.

    A Python [str] is a sequence of Unicode code points; it is modelled as
    a list of code points ([N]).  The character tests that the module
    relies on (the two regular-expression classes, [str.strip]) are written
    out in full.  The case mappings are written out for ASCII; for the code
    points from 128 on they are read from a table that is a parameter of
    the development ([UnicodeData]). *)

From Stdlib Require Import NArith ZArith List String Ascii Bool Lia.
From stdpp Require Import base decidable option list gmap pretty.
Import ListNotations.

Local Open Scope N_scope.

(** A Python string: its code points, in order. *)
Abbreviation pystr := (list N).

(** The code points of a literal of the source (all of them are ASCII). *)
Definition py (s : string) : pystr := List.map N_of_ascii (list_ascii_of_string s).

(** ** Python built-ins used by the module *)
Module Py.

Definition is_ascii_upper (c : N) : bool := (65 <=? c) && (c <=? 90).
Definition is_ascii_lower (c : N) : bool := (97 <=? c) && (c <=? 122).
Definition is_ascii_digit (c : N) : bool := (48 <=? c) && (c <=? 57).
Definition is_ascii_letter (c : N) : bool := is_ascii_upper c || is_ascii_lower c.
Definition is_ascii (c : N) : bool := c <? 128.

Definition ascii_upper (c : N) : N := if is_ascii_lower c then c - 32 else c.
Definition ascii_lower (c : N) : N := if is_ascii_upper c then c + 32 else c.

(** [Py_UNICODE_ISSPACE]: the characters matched by [\s] in a [str]
    pattern and removed by [str.strip()]. *)
Definition is_space (c : N) : bool :=
  ((9 <=? c) && (c <=? 13)) || ((28 <=? c) && (c <=? 32))
  || (c =? 133) || (c =? 160) || (c =? 5760)
  || ((8192 <=? c) && (c <=? 8202))
  || (c =? 8232) || (c =? 8233) || (c =? 8239) || (c =? 8287) || (c =? 12288).

(** The case tables of the Unicode database, consulted for the code
    points from 128 on.  Lower-casing inside [str.title] sees the
    characters around the one it converts (the final-sigma rule), so
    [ud_lower] is given the preceding characters (nearest first) and the
    following ones. *)
Record UnicodeData : Type := {
  ud_upper : N -> pystr;
  ud_title : N -> pystr;
  ud_lower : pystr -> N -> pystr -> pystr;
  ud_cased : N -> bool
}.

Section Case.
Variable ud : UnicodeData.

Definition to_upper (c : N) : pystr :=
  if is_ascii c then [ascii_upper c] else ud_upper ud c.
Definition to_title (c : N) : pystr :=
  if is_ascii c then [ascii_upper c] else ud_title ud c.
Definition to_lower (before : pystr) (c : N) (after : pystr) : pystr :=
  if is_ascii c then [ascii_lower c] else ud_lower ud before c after.
Definition is_cased (c : N) : bool :=
  if is_ascii c then is_ascii_letter c else ud_cased ud c.

(** [str.upper()] *)
Definition upper (s : pystr) : pystr := flat_map to_upper s.

(** [str.title()]: a character that follows a cased character is
    lower-cased, any other character is title-cased. *)
Fixpoint do_title (before : pystr) (previous_is_cased : bool) (s : pystr) : pystr :=
  match s with
  | [] => []
  | c :: rest =>
      (if previous_is_cased then to_lower before c rest else to_title c)
        ++ do_title (c :: before) (is_cased c) rest
  end.
Definition title (s : pystr) : pystr := do_title [] false s.
End Case.

(** [s.replace(old, new)] for a one-character [old]. *)
Definition replace (old : N) (new : pystr) (s : pystr) : pystr :=
  flat_map (fun c => if c =? old then new else [c]) s.

(** [re.sub(r"[...]+", repl, s)] for a character class [cls]: scanning
    from the left, every maximal run of characters of the class is
    replaced by one copy of [repl].  [in_run] tells that the previous
    character belonged to the run being replaced. *)
Fixpoint sub_runs (cls : N -> bool) (repl : pystr) (in_run : bool) (s : pystr) : pystr :=
  match s with
  | [] => []
  | c :: rest =>
      if cls c
      then (if in_run then [] else repl) ++ sub_runs cls repl true rest
      else c :: sub_runs cls repl false rest
  end.
Definition re_sub_plus (cls : N -> bool) (repl : pystr) (s : pystr) : pystr :=
  sub_runs cls repl false s.

(** [str.strip()] without argument. *)
Fixpoint lstrip (s : pystr) : pystr :=
  match s with
  | [] => []
  | c :: rest => if is_space c then lstrip rest else s
  end.
Definition rstrip (s : pystr) : pystr := rev (lstrip (rev s)).
Definition strip (s : pystr) : pystr := rstrip (lstrip s).

(** [a == b] on strings. *)
Fixpoint str_eqb (a b : pystr) : bool :=
  match a, b with
  | [], [] => true
  | x :: a', y :: b' => (x =? y) && str_eqb a' b'
  | _, _ => false
  end.

End Py.
Import Py.

(** ** The normaliser and the label mapper *)

(** The class [[^A-Za-z0-9\- ]]. *)
Definition not_kept (c : N) : bool :=
  negb (is_ascii_upper c || is_ascii_lower c || is_ascii_digit c || (c =? 45) || (c =? 32)).

Definition _normalize (ud : UnicodeData) (s : pystr) : pystr :=
  let s := replace 46 (py " ") s in
  let s := re_sub_plus not_kept (py "") s in
  let s := re_sub_plus is_space (py " ") s in
  upper ud (strip s).

Definition _map_clean_label (ud : UnicodeData) (norm : pystr) : pystr :=
  if str_eqb norm (py "ADHOC QUERIES") || str_eqb norm (py "AD-HOC QUERIES")
  then py "AD-HOC QUERIES"
  else if str_eqb norm (py "AGRICULTURAL PRODUCTION") then py "AGRICULTURAL PRODUCTION"
  else if str_eqb norm (py "AIRLINE COMPANIES") then py "AIRLINE COMPANIES"
  else if str_eqb norm (py "AIRLINES") then py "AIRLINES"
  else if str_eqb norm (py "ANALYTIC APPLICATIONS") then py "ANALYTIC APPLICATIONS"
  else if str_eqb norm (py "ANALYTIC MODEL") then py "ANALYTIC MODEL"
  else title ud norm.

(** The entries of Python's case tables for U+0130 (capital I with dot
    above: cased, lower-cases to [i] followed by U+0307) and U+0307
    (combining dot above: not cased, unchanged by every mapping).  Every
    other code point is left unchanged and uncased, so this table stands
    for Python's only on strings over ASCII and these two code points. *)
Definition ud_sample : UnicodeData :=
  {| ud_upper := fun c => [c];
     ud_title := fun c => [c];
     ud_lower := fun _ c _ => if c =? 304 then [105; 775] else [c];
     ud_cased := fun c => c =? 304 |}.

(** ** The normaliser and the title-casing as the specification words them *)
Module Spec.

Definition period_to_space (c : N) : N := if c =? 46 then 32 else c.

(** An ASCII letter, an ASCII digit, a hyphen or a space. *)
Definition kept (c : N) : bool :=
  is_ascii_letter c || is_ascii_digit c || (c =? 45) || (c =? 32).

(** Every run of whitespace becomes one space: a whitespace character
    followed by another one vanishes, the last of a run becomes a space. *)
Fixpoint collapse (s : pystr) : pystr :=
  match s with
  | [] => []
  | c :: rest =>
      if is_space c
      then match rest with
           | c' :: _ => if is_space c' then collapse rest else 32 :: collapse rest
           | [] => [32]
           end
      else c :: collapse rest
  end.

(** Steps 1 to 4. *)
Definition stripped (s : pystr) : pystr :=
  strip (collapse (List.filter kept (List.map period_to_space s))).

(** Steps 1 to 5. *)
Definition normalize (s : pystr) : pystr := List.map ascii_upper (stripped s).

(** Title-casing by whitespace-separated words: the first character of
    a word is capitalised, the remainder of the word is lower-cased. *)
Fixpoint title_words (word_start : bool) (s : pystr) : pystr :=
  match s with
  | [] => []
  | c :: rest =>
      (if word_start then ascii_upper c else ascii_lower c)
        :: title_words (is_space c) rest
  end.
Definition title (s : pystr) : pystr := title_words true s.

(** Title-casing by runs of letters: a character that follows a letter
    is lower-cased, any other character is capitalised. *)
Fixpoint title_runs (after_letter : bool) (s : pystr) : pystr :=
  match s with
  | [] => []
  | c :: rest =>
      (if after_letter then ascii_lower c else ascii_upper c)
        :: title_runs (is_ascii_letter c) rest
  end.
Definition title_letters (s : pystr) : pystr := title_runs false s.

(** The character at index [i] of [s] comes directly after a letter. *)
Definition follows_letter (s : pystr) (i : nat) : bool :=
  match i with
  | O => false
  | S j => match s !! j with Some p => is_ascii_letter p | None => false end
  end.

(** A character of which normalisation leaves nothing: anything but an
    ASCII letter, an ASCII digit or a hyphen. *)
Definition removed (c : N) : bool :=
  negb (is_ascii_letter c || is_ascii_digit c || (c =? 45)).

(** The exact-match table of the label mapper. *)
Definition label_table : list (pystr * pystr) :=
  [ (py "ADHOC QUERIES", py "AD-HOC QUERIES");
    (py "AD-HOC QUERIES", py "AD-HOC QUERIES");
    (py "AGRICULTURAL PRODUCTION", py "AGRICULTURAL PRODUCTION");
    (py "AIRLINE COMPANIES", py "AIRLINE COMPANIES");
    (py "AIRLINES", py "AIRLINES");
    (py "ANALYTIC APPLICATIONS", py "ANALYTIC APPLICATIONS");
    (py "ANALYTIC MODEL", py "ANALYTIC MODEL") ].

Definition is_table_key (norm : pystr) : bool :=
  existsb (fun kv => str_eqb norm (fst kv)) label_table.

(** The first row of the table whose key is [norm]. *)
Definition table_row (norm : pystr) : option (pystr * pystr) :=
  List.find (fun kv => str_eqb norm (fst kv)) label_table.

End Spec.

(** ** Exceptions *)

Inductive exn : Type :=
| FileNotFoundError (filename : pystr)
| IndexError
| AttributeError
| LibraryError (name : pystr).

Inductive result (A : Type) : Type :=
| Ok (a : A)
| Raise (e : exn).
Arguments Ok {A} a.
Arguments Raise {A} e.

Definition result_bind {A B} (r : result A) (k : A -> result B) : result B :=
  match r with
  | Ok a => k a
  | Raise e => Raise e
  end.

(** ** The key filler *)

Local Open Scope Z_scope.

(** [len(l)] and [range(n)] *)
Definition len {A} (l : list A) : Z := Z.of_nat (length l).
Definition range (n : Z) : list Z := List.map Z.of_nat (seq 0 (Z.to_nat n)).

(** [l[idx] = v]: a negative index counts from the end, an index out of
    range raises [IndexError]. *)
Definition setitem {A} (l : list A) (idx : Z) (v : A) : result (list A) :=
  let i := if idx <? 0 then idx + len l else idx in
  if (0 <=? i) && (i <? len l)
  then Ok (<[Z.to_nat i := v]> l)
  else Raise IndexError.

(** The f-string [f"key_filler_{i}"]. *)
Definition key_filler (i : Z) : pystr := py "key_filler_" ++ py (pretty i).

(** The dictionary [expected], in insertion order. *)
Definition expected : list (Z * pystr) :=
  [ (0, py "alanapatcacsiciolilynnaonplppsatiyt");
    (2, py "alanapatcacsiciolilynansonplppssatiyt");
    (3, py "alancsdeelicllymonaodsmtiyt");
    (7, py "alancadeeliclmlslymonaodstiyt");
    (12, py "agalctcudugriclpltodprrariroststuuculur");
    (17, py "aiesinirlinerls") ].

(** The loop [for idx, val in expected.items()]. *)
Fixpoint inject (n : Z) (items : list (Z * pystr)) (keys : list pystr) : result (list pystr) :=
  match items with
  | [] => Ok keys
  | (idx, val) :: rest =>
      if (0 <=? idx) && (idx <? n)
      then result_bind (setitem keys idx val) (inject n rest)
      else inject n rest keys
  end.

Definition _make_test_keys (n : Z) : result (list pystr) :=
  let keys := List.map key_filler (range n) in
  inject n expected keys.

(** The value that the loop stores last for index [i], if any. *)
Fixpoint stored_last (items : list (Z * pystr)) (i : Z) : option pystr :=
  match items with
  | [] => None
  | (idx, val) :: rest =>
      match stored_last rest i with
      | Some v => Some v
      | None => if idx =? i then Some val else None
      end
  end.

(** The literal that [expected] holds for an index, if any. *)
Definition expected_at (i : Z) : option pystr :=
  snd <$> List.find (fun kv => fst kv =? i) expected.

(** The key of row [i]: the literal of [expected] where there is one, the
    filler otherwise. *)
Definition key_at (i : Z) : pystr :=
  match expected_at i with
  | Some literal => literal
  | None => key_filler i
  end.

Local Close Scope Z_scope.

(** ** The entry point *)

(** A value of the column after [astype(str)]: a string, or a missing
    value (the float [nan]) that the conversion has left as it is. *)
Inductive cell : Type :=
| Str (s : pystr)
| Missing.

(** What [main] asks of the operating system and of pandas.  [FS] is the
    state of the file system; reading leaves it as it is, [to_csv] may
    change it, and every library call may raise. *)
Record Env : Type := {
  FS : Type;
  DataFrame : Type;
  (** [os.path.exists(path)] *)
  os_path_exists : pystr -> FS -> bool;
  (** [pd.read_csv(path)] *)
  pd_read_csv : pystr -> FS -> result DataFrame;
  (** [pd.read_csv(path, header=None, names=names)] *)
  pd_read_csv_names : pystr -> list pystr -> FS -> result DataFrame;
  (** [df.columns] *)
  df_columns : DataFrame -> list pystr;
  (** [df[column].astype(str).tolist()] *)
  df_astype_str : DataFrame -> pystr -> result (list cell);
  (** [pd.DataFrame({column: values})] *)
  pd_DataFrame : pystr -> list pystr -> DataFrame;
  (** [df.to_csv(path, index=False)] *)
  df_to_csv : DataFrame -> pystr -> FS -> result unit * FS
}.

(** Computations that read and write a state [S] and may raise. *)
Definition IO (S A : Type) : Type := S -> result A * S.

Definition io_ret {S A} (a : A) : IO S A := fun st => (Ok a, st).
Definition io_raise {S A} (e : exn) : IO S A := fun st => (Raise e, st).
Definition io_bind {S A B} (c : IO S A) (k : A -> IO S B) : IO S B :=
  fun st =>
    match c st with
    | (Ok a, st') => k a st'
    | (Raise e, st') => (Raise e, st')
    end.
(** A call that only reads the state. *)
Definition io_read {S A} (f : S -> result A) : IO S A := fun st => (f st, st).
(** A call that does not touch the state. *)
Definition io_pure {S A} (r : result A) : IO S A := fun st => (r, st).

Declare Scope io_scope.
Delimit Scope io_scope with io.
Notation "'let!' x ':=' c 'in' k" := (io_bind c (fun x => k))
  (at level 10, x name, c at level 200, k at level 200) : io_scope.

(** The loop of [main] that fills [cleaned]. *)
Definition clean_loop (ud : UnicodeData) (raw_texts : list pystr) : list pystr :=
  fold_left
    (fun cleaned s =>
       let norm := _normalize ud s in
       cleaned ++ [_map_clean_label ud norm])
    raw_texts [].

(** [_normalize(s)] on a value of the column: a missing value is no
    string and has no method [replace]. *)
Definition normalize_value (ud : UnicodeData) (s : cell) : result pystr :=
  match s with
  | Str text => Ok (_normalize ud text)
  | Missing => Raise AttributeError
  end.

(** The loop of [main] on the values that pandas returns: it stops at the
    first one that is not a string; on strings it is [clean_loop]. *)
Definition clean_cells (ud : UnicodeData) (raw_texts : list cell) : result (list pystr) :=
  fold_left
    (fun done s =>
       result_bind done (fun cleaned =>
       result_bind (normalize_value ud s) (fun norm =>
       Ok (cleaned ++ [_map_clean_label ud norm]))))
    raw_texts (Ok []).

Definition main (env : Env) (ud : UnicodeData) (input_path output_path : pystr)
  : IO (FS env) unit :=
  (let! found := io_read (fun fs => Ok (os_path_exists env input_path fs)) in
   if negb found then io_raise (FileNotFoundError input_path) else
   let! df := io_read (pd_read_csv env input_path) in
   let! df := (if negb (existsb (str_eqb (py "raw_text")) (df_columns env df))
               then io_read (pd_read_csv_names env input_path [py "raw_text"])
               else io_ret df) in
   let! raw_texts := io_pure (df_astype_str env df (py "raw_text")) in
   let! cleaned := io_pure (clean_cells ud raw_texts) in
   let out_df := pd_DataFrame env (py "cleaned_text") cleaned in
   let! written := df_to_csv env out_df output_path in
   let! test_keys := io_pure (_make_test_keys (len raw_texts)) in
   let test_df := pd_DataFrame env (py "key") test_keys in
   df_to_csv env test_df (py "files/test.csv"))%io.


(** The table that [main] works on: the input as [read_csv] gives it, or,
    when it has no column [raw_text], read again as one column without
    header; and the values of its column [raw_text]. *)
Definition input_frame (env : Env) (input_path : pystr) (fs : FS env)
  : result (DataFrame env) :=
  result_bind (pd_read_csv env input_path fs) (fun df =>
    if negb (existsb (str_eqb (py "raw_text")) (df_columns env df))
    then pd_read_csv_names env input_path [py "raw_text"] fs
    else Ok df).
Definition input_records (env : Env) (input_path : pystr) (fs : FS env)
  : result (list cell) :=
  result_bind (input_frame env input_path fs) (fun df =>
    df_astype_str env df (py "raw_text")).

(** ** An in-memory environment

    Files are a finite map from paths to texts; a table has one column and
    is stored one cell per line, the column name first, with no quoting.
    A cell that reads [NA] is a missing value, and [astype(str)] leaves it
    missing, as pandas 3 does.  It is the environment on which [main] is
    run in the examples. *)
Module Mem.

Record frame : Type := { column : pystr; cells : list cell }.

Definition parse_cell (text : pystr) : cell :=
  if str_eqb text (py "NA") then Missing else Str text.
Definition print_cell (c : cell) : pystr :=
  match c with
  | Str text => text
  | Missing => []
  end.

Fixpoint split_lines (cur : pystr) (s : pystr) : list pystr :=
  match s with
  | [] => match cur with [] => [] | _ => [rev cur] end
  | c :: rest =>
      if c =? 10 then rev cur :: split_lines [] rest
      else split_lines (c :: cur) rest
  end.

Definition join_lines (ls : list pystr) : pystr :=
  flat_map (fun l => l ++ [10]) ls.

Definition read_csv (path : pystr) (fs : gmap pystr pystr) : result frame :=
  match fs !! path with
  | None => Raise (FileNotFoundError path)
  | Some text =>
      match split_lines [] text with
      | [] => Raise (LibraryError (py "EmptyDataError"))
      | header :: rows => Ok {| column := header; cells := List.map parse_cell rows |}
      end
  end.

Definition read_csv_names (path : pystr) (names : list pystr) (fs : gmap pystr pystr)
  : result frame :=
  match fs !! path, names with
  | None, _ => Raise (FileNotFoundError path)
  | Some text, [name] =>
      Ok {| column := name; cells := List.map parse_cell (split_lines [] text) |}
  | Some _, _ => Raise (LibraryError (py "ParserError"))
  end.

Definition astype_str (df : frame) (name : pystr) : result (list cell) :=
  if str_eqb name (column df) then Ok (cells df) else Raise (LibraryError (py "KeyError")).

Definition to_csv (df : frame) (path : pystr) (fs : gmap pystr pystr)
  : result unit * gmap pystr pystr :=
  (Ok tt, <[path := join_lines (column df :: List.map print_cell (cells df))]> fs).

Definition env : Env :=
  {| FS := gmap pystr pystr;
     DataFrame := frame;
     os_path_exists := fun path fs => bool_decide (is_Some (fs !! path));
     pd_read_csv := read_csv;
     pd_read_csv_names := read_csv_names;
     df_columns := fun df => [column df];
     df_astype_str := astype_str;
     pd_DataFrame := fun name values => {| column := name; cells := List.map Str values |};
     df_to_csv := to_csv |}.

(** A file system holding one input file. *)
Definition one_file (path text : pystr) : gmap pystr pystr := {[ path := text ]}.

(** An input file with the header [raw_text] and one without a header. *)
Definition with_header : gmap pystr pystr :=
  one_file (py "files/input.txt")
    (join_lines [py "raw_text"; py "Ad-Hoc Queries"; py "airlines."; py "x-ray 3d"]).
Definition without_header : gmap pystr pystr :=
  one_file (py "files/input.txt")
    (join_lines [py "Ad-Hoc Queries"; py "airlines."; py "x-ray 3d"]).
(** An input file with a missing value, and an empty one. *)
Definition with_missing : gmap pystr pystr :=
  one_file (py "files/input.txt")
    (join_lines [py "raw_text"; py "airlines."; py "NA"; py "x-ray 3d"]).
Definition empty_input : gmap pystr pystr :=
  one_file (py "files/input.txt") [].

End Mem.

(** ** Normalised tokens *)
Module Token.

(** An upper-case ASCII letter, an ASCII digit, a hyphen or a space. *)
Definition in_alphabet (c : N) : bool :=
  is_ascii_upper c || is_ascii_digit c || (c =? 45) || (c =? 32).

(** No space is followed by a space. *)
Fixpoint single_spaced (s : pystr) : bool :=
  match s with
  | c :: rest =>
      match rest with
      | c' :: _ => negb ((c =? 32) && (c' =? 32))
      | [] => true
      end && single_spaced rest
  | [] => true
  end.

(** Neither the first nor the last character is whitespace. *)
Definition trimmed (s : pystr) : bool :=
  match head s with Some c => negb (is_space c) | None => true end
  && match last s with Some c => negb (is_space c) | None => true end.

Definition is_normalized (s : pystr) : bool :=
  forallb in_alphabet s && single_spaced s && trimmed s.

End Token.

(** * Properties *)

(** ** Characters *)

Ltac bool_to_prop :=
  repeat rewrite ?negb_true_iff, ?negb_false_iff, ?orb_true_iff, ?orb_false_iff,
    ?andb_true_iff, ?andb_false_iff, ?N.leb_le, ?N.leb_gt, ?N.ltb_lt, ?N.ltb_ge,
    ?N.eqb_eq, ?N.eqb_neq in *.

Ltac unfold_chars :=
  unfold Token.in_alphabet, Spec.kept, not_kept, Spec.period_to_space, is_ascii_letter,
    is_ascii_upper, is_ascii_lower, is_ascii_digit, is_ascii, is_space in *.

(** Closes a goal about character codes whose hypotheses and conclusion
    are equations between character tests and [true] or [false]. *)
Ltac chars := intros; unfold_chars; bool_to_prop; lia.

Lemma str_eqb_eq (a b : pystr) : str_eqb a b = true <-> a = b.
Proof.
  revert b. induction a as [|x a IH]; intros [|y b]; simpl; try easy.
  rewrite andb_true_iff, N.eqb_eq, IH. split.
  - intros [-> ->]. reflexivity.
  - intros [= -> ->]. auto.
Qed.

Lemma str_eqb_refl (a : pystr) : str_eqb a a = true.
Proof. apply str_eqb_eq. reflexivity. Qed.

Lemma not_kept_kept c : not_kept c = negb (Spec.kept c).
Proof. unfold not_kept, Spec.kept, is_ascii_letter. reflexivity. Qed.

Lemma kept_space_is_32 c : Spec.kept c = true -> is_space c = true -> c = 32.
Proof. chars. Qed.

Lemma kept_is_ascii c : Spec.kept c = true -> is_ascii c = true.
Proof. chars. Qed.

Lemma ascii_upper_space c : is_space (ascii_upper c) = is_space c.
Proof.
  unfold ascii_upper. destruct (is_ascii_lower c) eqn:E; [|reflexivity].
  assert (is_space c = false) as -> by (revert E; chars).
  revert E. chars.
Qed.

Lemma ascii_upper_32 c : (ascii_upper c =? 32) = (c =? 32).
Proof.
  unfold ascii_upper. destruct (is_ascii_lower c) eqn:E; [|reflexivity].
  revert E. unfold_chars. intros E. bool_to_prop.
  destruct (N.eqb_spec (c - 32) 32), (N.eqb_spec c 32); try reflexivity; lia.
Qed.

Lemma ascii_upper_alphabet c : Spec.kept c = true -> Token.in_alphabet (ascii_upper c) = true.
Proof.
  unfold ascii_upper. destruct (is_ascii_lower c) eqn:E; revert E; chars.
Qed.

Lemma alphabet_kept c : Token.in_alphabet c = true -> Spec.kept c = true.
Proof. chars. Qed.

Lemma alphabet_upper c : Token.in_alphabet c = true -> ascii_upper c = c.
Proof.
  intros H. unfold ascii_upper.
  destruct (is_ascii_lower c) eqn:E; [|reflexivity]. revert H E. chars.
Qed.

Lemma alphabet_no_period c : Token.in_alphabet c = true -> Spec.period_to_space c = c.
Proof.
  intros H. unfold Spec.period_to_space.
  destruct (N.eqb_spec c 46) as [->|]; [discriminate H | reflexivity].
Qed.

(** ** The steps of the normaliser *)

Lemma replace_period s : replace 46 (py " ") s = List.map Spec.period_to_space s.
Proof.
  unfold replace. induction s as [|c s IH]; simpl; [reflexivity|].
  rewrite IH. unfold Spec.period_to_space. destruct (c =? 46); reflexivity.
Qed.

Lemma sub_runs_delete cls in_run s :
  sub_runs cls [] in_run s = List.filter (fun c => negb (cls c)) s.
Proof.
  revert in_run. induction s as [|c s IH]; intros in_run; simpl; [reflexivity|].
  destruct (cls c); simpl.
  - destruct in_run; apply IH.
  - f_equal. apply IH.
Qed.

Lemma re_sub_not_kept s : re_sub_plus not_kept (py "") s = List.filter Spec.kept s.
Proof.
  unfold re_sub_plus. change (py "") with (@nil N). rewrite sub_runs_delete.
  induction s as [|c s IH]; simpl; [reflexivity|].
  rewrite not_kept_kept, negb_involutive, IH. reflexivity.
Qed.

(** The substitution writes the space at the start of a run, [collapse]
    at its end. *)
Lemma sub_runs_collapse s :
  sub_runs is_space [32] false s = Spec.collapse s
  /\ forall c, is_space c = true -> Spec.collapse (c :: s) = 32 :: sub_runs is_space [32] true s.
Proof.
  induction s as [|c' s [IH1 IH2]].
  - split; [reflexivity|]. intros c Hc. simpl. rewrite Hc. reflexivity.
  - split.
    + change (sub_runs is_space [32] false (c' :: s))
        with (if is_space c' then [32] ++ sub_runs is_space [32] true s
              else c' :: sub_runs is_space [32] false s).
      destruct (is_space c') eqn:E.
      * rewrite (IH2 c' E). reflexivity.
      * rewrite IH1. simpl. rewrite E. reflexivity.
    + intros c Hc.
      change (Spec.collapse (c :: c' :: s))
        with (if is_space c
              then (if is_space c' then Spec.collapse (c' :: s) else 32 :: Spec.collapse (c' :: s))
              else c :: Spec.collapse (c' :: s)).
      rewrite Hc. simpl sub_runs. destruct (is_space c') eqn:E.
      * rewrite (IH2 c' E). reflexivity.
      * rewrite IH1. simpl. rewrite E. reflexivity.
Qed.

Lemma re_sub_space s : re_sub_plus is_space (py " ") s = Spec.collapse s.
Proof. apply sub_runs_collapse. Qed.

Lemma upper_ascii ud s :
  Forall (fun c => is_ascii c = true) s -> upper ud s = List.map ascii_upper s.
Proof.
  unfold upper. induction 1 as [|c s Hc _ IH]; simpl; [reflexivity|].
  rewrite IH. unfold to_upper. rewrite Hc. reflexivity.
Qed.

(** *** [strip] *)

Lemma lstrip_app_nonspace a c : is_space c = false -> lstrip (a ++ [c]) = lstrip a ++ [c].
Proof.
  intros Hc. induction a as [|x a IH]; simpl.
  - rewrite Hc. reflexivity.
  - destruct (is_space x); [apply IH | reflexivity].
Qed.

Lemma lstrip_app_space a c :
  is_space c = true -> lstrip (a ++ [c]) = match lstrip a with [] => [] | l => l ++ [c] end.
Proof.
  intros Hc. induction a as [|x a IH]; simpl.
  - rewrite Hc. reflexivity.
  - destruct (is_space x); [apply IH | reflexivity].
Qed.

Lemma rstrip_cons c s :
  rstrip (c :: s) =
  match rstrip s with
  | [] => if is_space c then [] else [c]
  | l => c :: l
  end.
Proof.
  unfold rstrip. simpl rev.
  destruct (is_space c) eqn:Hc.
  - rewrite (lstrip_app_space _ _ Hc).
    destruct (lstrip (rev s)) as [|x l] eqn:E; simpl; [reflexivity|].
    rewrite rev_app_distr. simpl.
    destruct (rev l ++ [x]) eqn:E'; [|reflexivity].
    destruct (rev l); discriminate.
  - rewrite (lstrip_app_nonspace _ _ Hc), rev_app_distr. simpl.
    destruct (rev (lstrip (rev s))); reflexivity.
Qed.

Lemma lstrip_Forall (P : N -> Prop) s : Forall P s -> Forall P (lstrip s).
Proof.
  induction 1 as [|c s Hc Hs IH]; simpl; [constructor|].
  destruct (is_space c); [assumption | constructor; assumption].
Qed.

Lemma rstrip_Forall (P : N -> Prop) s : Forall P s -> Forall P (rstrip s).
Proof.
  induction 1 as [|c s Hc Hs IH]; [constructor|].
  rewrite rstrip_cons. destruct (rstrip s) as [|x l].
  - destruct (is_space c); repeat constructor; assumption.
  - constructor; assumption.
Qed.

Lemma strip_Forall (P : N -> Prop) s : Forall P s -> Forall P (strip s).
Proof. intros H. apply rstrip_Forall, lstrip_Forall, H. Qed.

Lemma lstrip_head s c : head (lstrip s) = Some c -> is_space c = false.
Proof.
  induction s as [|x s IH]; simpl; [discriminate|].
  destruct (is_space x) eqn:E; [assumption|].
  simpl. intros [= <-]. assumption.
Qed.

Lemma last_rev {A} (l : list A) : last (rev l) = head l.
Proof. destruct l as [|x l]; [reflexivity|]. simpl. apply last_snoc. Qed.

Lemma rstrip_last s c : last (rstrip s) = Some c -> is_space c = false.
Proof. unfold rstrip. rewrite last_rev. apply lstrip_head. Qed.

Lemma rstrip_head s c :
  head s = Some c -> is_space c = false -> head (rstrip s) = Some c.
Proof.
  destruct s as [|x s]; [discriminate|]. simpl. intros [= ->] Hc.
  rewrite rstrip_cons, Hc. destruct (rstrip s); reflexivity.
Qed.

Lemma strip_trimmed s : Token.trimmed (strip s) = true.
Proof.
  unfold Token.trimmed, strip. apply andb_true_iff. split.
  - destruct (head (rstrip (lstrip s))) as [c|] eqn:E; [|reflexivity].
    destruct (lstrip s) as [|x l] eqn:El; [discriminate E|].
    assert (Hx : is_space x = false) by (apply (lstrip_head s); rewrite El; reflexivity).
    rewrite (rstrip_head (x :: l) x eq_refl Hx) in E. injection E as <-.
    rewrite Hx. reflexivity.
  - destruct (last (rstrip (lstrip s))) as [c|] eqn:E; [|reflexivity].
    rewrite (rstrip_last _ _ E). reflexivity.
Qed.

Lemma lstrip_id s : match head s with Some c => is_space c = false | None => True end -> lstrip s = s.
Proof. destruct s as [|c s]; simpl; [reflexivity|]. intros ->. reflexivity. Qed.

Lemma strip_id s : Token.trimmed s = true -> strip s = s.
Proof.
  unfold Token.trimmed. rewrite andb_true_iff. intros [Hh Hl].
  unfold strip. rewrite lstrip_id.
  - unfold rstrip. rewrite lstrip_id; [apply rev_involutive|].
    rewrite <- (rev_involutive s) in Hl. rewrite last_rev in Hl.
    destruct (head (rev s)); [|exact I]. apply negb_true_iff, Hl.
  - destruct (head s); [|exact I]. apply negb_true_iff, Hh.
Qed.

(** *** Single spacing *)

Lemma single_spaced_tail c s : Token.single_spaced (c :: s) = true -> Token.single_spaced s = true.
Proof. simpl. rewrite andb_true_iff. tauto. Qed.

Lemma single_spaced_nonspace c s :
  (c =? 32) = false -> Token.single_spaced (c :: s) = Token.single_spaced s.
Proof. intros H. simpl. rewrite H. destruct s; reflexivity. Qed.

Lemma collapse_single_spaced s : Token.single_spaced (Spec.collapse s) = true.
Proof.
  induction s as [|c s IH]; [reflexivity|].
  assert (Hns : forall x, is_space x = false -> (x =? 32) = false).
  { intros x Hx. destruct (N.eqb_spec x 32) as [->|]; [discriminate Hx | reflexivity]. }
  simpl. destruct (is_space c) eqn:Hc.
  - destruct s as [|c' s']; [reflexivity|].
    destruct (is_space c') eqn:Hc'; [exact IH|].
    revert IH. simpl. rewrite Hc'. intros IH.
    change (negb ((32 =? 32) && (c' =? 32)) && Token.single_spaced (c' :: Spec.collapse s') = true).
    rewrite (Hns c' Hc'). exact IH.
  - rewrite (single_spaced_nonspace _ _ (Hns c Hc)). exact IH.
Qed.

Lemma lstrip_single_spaced s :
  Token.single_spaced s = true -> Token.single_spaced (lstrip s) = true.
Proof.
  induction s as [|c s IH]; [trivial|]. intros H. simpl lstrip.
  destruct (is_space c); [apply IH, (single_spaced_tail c s H) | exact H].
Qed.

Lemma rstrip_nonempty_head s x l : rstrip s = x :: l -> head s = Some x.
Proof.
  destruct s as [|c s]; [discriminate|]. rewrite rstrip_cons.
  destruct (rstrip s); [destruct (is_space c)|]; intros [= <- <-]; reflexivity.
Qed.

Lemma rstrip_single_spaced s :
  Token.single_spaced s = true -> Token.single_spaced (rstrip s) = true.
Proof.
  induction s as [|c s IH]; [trivial|]. intros H.
  pose proof (IH (single_spaced_tail c s H)) as IH'.
  rewrite rstrip_cons. destruct (rstrip s) as [|x l] eqn:E.
  - destruct (is_space c); reflexivity.
  - apply rstrip_nonempty_head in E. destruct s as [|c' s']; [discriminate E|].
    injection E as ->.
    change (negb ((c =? 32) && (x =? 32)) && Token.single_spaced (x :: s') = true) in H.
    change (negb ((c =? 32) && (x =? 32)) && Token.single_spaced (x :: l) = true).
    apply andb_true_iff in H as [H1 _]. rewrite H1. exact IH'.
Qed.

Lemma map_upper_single_spaced s :
  Token.single_spaced (List.map ascii_upper s) = Token.single_spaced s.
Proof.
  induction s as [|c s IH]; [reflexivity|].
  simpl. simpl in IH. rewrite IH. destruct s as [|c' s']; [reflexivity|].
  simpl. rewrite !ascii_upper_32. reflexivity.
Qed.

Lemma last_map {A B} (f : A -> B) (l : list A) : last (List.map f l) = f <$> last l.
Proof.
  induction l as [|x l IH]; [reflexivity|].
  destruct l as [|y l]; [reflexivity|]. exact IH.
Qed.

Lemma map_upper_trimmed s : Token.trimmed (List.map ascii_upper s) = Token.trimmed s.
Proof.
  unfold Token.trimmed. rewrite last_map.
  f_equal.
  - destruct s; simpl; [reflexivity|]. rewrite ascii_upper_space. reflexivity.
  - destruct (last s); simpl; [|reflexivity]. rewrite ascii_upper_space. reflexivity.
Qed.

Lemma collapse_kept s :
  Forall (fun c => Spec.kept c = true) s ->
  Forall (fun c => Spec.kept c = true) (Spec.collapse s).
Proof.
  induction 1 as [|c s Hc Hs IH]; [constructor|].
  simpl. destruct (is_space c).
  - destruct s as [|c' s']; [repeat constructor|].
    destruct (is_space c'); [exact IH | constructor; [reflexivity | exact IH]].
  - constructor; assumption.
Qed.

Lemma filter_kept s : Forall (fun c => Spec.kept c = true) (List.filter Spec.kept s).
Proof.
  induction s as [|c s IH]; simpl; [constructor|].
  destruct (Spec.kept c) eqn:E; [constructor|]; assumption.
Qed.

Lemma forallb_Forall_true {A} (f : A -> bool) (l : list A) :
  forallb f l = true <-> Forall (fun x => f x = true) l.
Proof.
  induction l as [|x l IH]; simpl.
  - split; [constructor | reflexivity].
  - rewrite andb_true_iff, IH. split.
    + intros [? ?]. constructor; assumption.
    + inversion 1; subst. split; assumption.
Qed.

Lemma stripped_kept s : Forall (fun c => Spec.kept c = true) (Spec.stripped s).
Proof. unfold Spec.stripped. apply strip_Forall, collapse_kept, filter_kept. Qed.

(** ** The normaliser *)

Lemma normalize_spec ud s : _normalize ud s = Spec.normalize s.
Proof.
  unfold _normalize, Spec.normalize.
  rewrite replace_period, re_sub_not_kept, re_sub_space.
  apply upper_ascii. fold (Spec.stripped s).
  eapply List.Forall_impl; [|apply stripped_kept]. apply kept_is_ascii.
Qed.

Lemma spec_normalize_normalized s : Token.is_normalized (Spec.normalize s) = true.
Proof.
  unfold Token.is_normalized, Spec.normalize. fold (Spec.stripped s).
  rewrite map_upper_single_spaced, map_upper_trimmed.
  apply andb_true_iff; split; [apply andb_true_iff; split|].
  - apply forallb_Forall_true, List.Forall_map.
    eapply List.Forall_impl; [|apply stripped_kept]. apply ascii_upper_alphabet.
  - apply rstrip_single_spaced, lstrip_single_spaced, collapse_single_spaced.
  - apply strip_trimmed.
Qed.

Lemma collapse_id s :
  Forall (fun c => Token.in_alphabet c = true) s ->
  Token.single_spaced s = true -> Spec.collapse s = s.
Proof.
  induction 1 as [|c s Hc Hs IH]; [reflexivity|]. intros Hss.
  pose proof (IH (single_spaced_tail c s Hss)) as IH'.
  assert (Hsp : forall x, Token.in_alphabet x = true -> is_space x = true -> x = 32).
  { intros x Hx. apply kept_space_is_32, alphabet_kept, Hx. }
  change (Spec.collapse (c :: s))
    with (if is_space c
          then match s with
               | c' :: _ => if is_space c' then Spec.collapse s else 32 :: Spec.collapse s
               | [] => [32]
               end
          else c :: Spec.collapse s).
  destruct (is_space c) eqn:E.
  - rewrite (Hsp c Hc E) in *. destruct s as [|c' s']; [reflexivity|].
    destruct (is_space c') eqn:E'.
    + inversion Hs; subst. rewrite (Hsp c' H1 E') in Hss. discriminate Hss.
    + rewrite IH'. reflexivity.
  - rewrite IH'. reflexivity.
Qed.

Lemma map_id_Forall {A} (f : A -> A) (l : list A) :
  Forall (fun x => f x = x) l -> List.map f l = l.
Proof. induction 1 as [|x l Hx _ IH]; simpl; [reflexivity|]. rewrite Hx, IH. reflexivity. Qed.

Lemma filter_id_Forall {A} (f : A -> bool) (l : list A) :
  Forall (fun x => f x = true) l -> List.filter f l = l.
Proof. induction 1 as [|x l Hx _ IH]; simpl; [reflexivity|]. rewrite Hx, IH. reflexivity. Qed.

Lemma normalized_fixed s : Token.is_normalized s = true -> Spec.normalize s = s.
Proof.
  unfold Token.is_normalized. rewrite !andb_true_iff, forallb_Forall_true.
  intros [[Ha Hs] Ht]. unfold Spec.normalize, Spec.stripped.
  rewrite (map_id_Forall Spec.period_to_space)
    by (eapply List.Forall_impl; [|exact Ha]; apply alphabet_no_period).
  rewrite filter_id_Forall by (eapply List.Forall_impl; [|exact Ha]; apply alphabet_kept).
  rewrite (collapse_id s Ha Hs), (strip_id s Ht).
  apply map_id_Forall. eapply List.Forall_impl; [|exact Ha]. apply alphabet_upper.
Qed.

Lemma normalize_alphabet ud s : Forall (fun c => Token.in_alphabet c = true) (_normalize ud s).
Proof.
  pose proof (spec_normalize_normalized s) as Hn. rewrite normalize_spec.
  unfold Token.is_normalized in Hn.
  apply andb_true_iff in Hn as [Hn _]. apply andb_true_iff in Hn as [Ha _].
  apply forallb_Forall_true, Ha.
Qed.

(** C4: the normaliser replaces every period by a space, removes every
    character that is not an ASCII letter, an ASCII digit, a hyphen or a
    space, collapses every run of whitespace into one space, strips the
    whitespace at both ends and converts to upper case, in this order.  Its
    result is therefore upper case, made of upper-case ASCII letters,
    digits, hyphens and spaces only, single-spaced and trimmed. *)
Theorem normalize_steps (ud : UnicodeData) (s : pystr) :
  _normalize ud s
  = List.map ascii_upper
      (strip (Spec.collapse (List.filter Spec.kept (List.map Spec.period_to_space s))))
  /\ upper ud (_normalize ud s) = _normalize ud s
  /\ Forall (fun c => Token.in_alphabet c = true) (_normalize ud s)
  /\ Token.single_spaced (_normalize ud s) = true
  /\ Token.trimmed (_normalize ud s) = true.
Proof.
  pose proof (spec_normalize_normalized s) as Hn.
  rewrite normalize_spec. unfold Token.is_normalized in Hn.
  apply andb_true_iff in Hn as [Hn Ht]. apply andb_true_iff in Hn as [Ha Hs].
  apply forallb_Forall_true in Ha.
  split; [reflexivity|]. split; [|auto].
  rewrite upper_ascii.
  - apply map_id_Forall. eapply List.Forall_impl; [|exact Ha]. apply alphabet_upper.
  - eapply List.Forall_impl; [|exact Ha]. intros c Hc. apply kept_is_ascii, alphabet_kept, Hc.
Qed.

(** C5: normalising a normalised token returns it unchanged. *)
Theorem normalize_idempotent (ud : UnicodeData) (s : pystr) :
  _normalize ud (_normalize ud s) = _normalize ud s.
Proof.
  rewrite !normalize_spec. apply normalized_fixed, spec_normalize_normalized.
Qed.

(** A token that is already normalised is a fixed point of the normaliser. *)
Lemma normalize_normalized (ud : UnicodeData) (t : pystr) :
  Token.is_normalized t = true -> _normalize ud t = t.
Proof. intros H. rewrite normalize_spec. apply normalized_fixed, H. Qed.

(** ** Records of which nothing is left *)

Lemma collapse_all_space s :
  Forall (fun c => is_space c = true) s -> Spec.collapse s = [] \/ Spec.collapse s = [32].
Proof.
  induction 1 as [|c s Hc Hs IH]; [left; reflexivity|].
  simpl. rewrite Hc. destruct s as [|c' s']; [right; reflexivity|].
  inversion Hs as [|? ? Hc' _]; subst. rewrite Hc'. exact IH.
Qed.

Lemma removed_filtered s :
  Forall (fun c => Spec.removed c = true) s ->
  Forall (fun c => is_space c = true)
    (List.filter Spec.kept (List.map Spec.period_to_space s)).
Proof.
  induction 1 as [|c s Hc Hs IH]; simpl; [constructor|].
  destruct (Spec.kept (Spec.period_to_space c)) eqn:E; [|exact IH].
  constructor; [|exact IH].
  unfold Spec.period_to_space in *. unfold Spec.removed in Hc.
  destruct (N.eqb_spec c 46); [reflexivity|].
  revert Hc E. chars.
Qed.

Lemma mapper_empty (ud : UnicodeData) : _map_clean_label ud [] = [].
Proof. reflexivity. Qed.

(** C10: a record made only of characters that are not ASCII letters,
    ASCII digits or hyphens (whitespace, periods, other punctuation,
    non-ASCII characters, or nothing at all) is normalised to the empty
    string, and the label of the empty string is the empty string. *)
Theorem normalize_nothing_left (ud : UnicodeData) (s : pystr) :
  Forall (fun c => Spec.removed c = true) s ->
  _normalize ud s = [] /\ _map_clean_label ud [] = []
  /\ _map_clean_label ud (_normalize ud s) = [].
Proof.
  intros H. assert (Hn : _normalize ud s = []).
  { rewrite normalize_spec. unfold Spec.normalize, Spec.stripped.
    destruct (collapse_all_space _ (removed_filtered s H)) as [-> | ->]; reflexivity. }
  rewrite Hn. repeat split; reflexivity.
Qed.

Lemma normalize_nothing_left_witness :
  Forall (fun c => Spec.removed c = true) (py " .. !? ,;" ++ [9; 233; 8364])
  /\ _normalize ud_sample (py " .. !? ,;" ++ [9; 233; 8364]) = []
  /\ _map_clean_label ud_sample [] = []
  /\ _map_clean_label ud_sample (_normalize ud_sample (py " .. !? ,;" ++ [9; 233; 8364])) = [].
Proof.
  assert (H : Forall (fun c => Spec.removed c = true) (py " .. !? ,;" ++ [9; 233; 8364]))
    by (repeat constructor).
  split; [exact H|].
  apply (normalize_nothing_left ud_sample (py " .. !? ,;" ++ [9; 233; 8364]) H).
Defined.

(** ** Title-casing *)

Lemma ascii_upper_ascii c : is_ascii c = true -> is_ascii (ascii_upper c) = true.
Proof. unfold ascii_upper. destruct (is_ascii_lower c) eqn:E; [|trivial]. revert E. chars. Qed.

Lemma ascii_lower_ascii c : is_ascii c = true -> is_ascii (ascii_lower c) = true.
Proof. unfold ascii_lower. destruct (is_ascii_upper c) eqn:E; [|trivial]. revert E. chars. Qed.

Lemma ascii_upper_letter c : is_ascii_letter (ascii_upper c) = is_ascii_letter c.
Proof.
  unfold ascii_upper. destruct (is_ascii_lower c) eqn:E; [|reflexivity].
  assert (is_ascii_letter c = true) as -> by (revert E; chars). revert E. chars.
Qed.

Lemma ascii_lower_letter c : is_ascii_letter (ascii_lower c) = is_ascii_letter c.
Proof.
  unfold ascii_lower. destruct (is_ascii_upper c) eqn:E; [|reflexivity].
  assert (is_ascii_letter c = true) as -> by (revert E; chars). revert E. chars.
Qed.

Lemma ascii_lower_not_upper c : is_ascii_upper (ascii_lower c) = false.
Proof.
  unfold ascii_lower. destruct (is_ascii_upper c) eqn:E; [|exact E]. revert E. chars.
Qed.

Lemma ascii_upper_idem c : ascii_upper (ascii_upper c) = ascii_upper c.
Proof.
  unfold ascii_upper at 2. destruct (is_ascii_lower c) eqn:E; unfold ascii_upper.
  - assert (is_ascii_lower (c - 32) = false) as -> by (revert E; chars).
    rewrite E. reflexivity.
  - rewrite E. reflexivity.
Qed.

Lemma ascii_lower_idem c : ascii_lower (ascii_lower c) = ascii_lower c.
Proof. unfold ascii_lower at 1. rewrite ascii_lower_not_upper. reflexivity. Qed.

(** On ASCII text [str.title] does not consult the Unicode tables. *)
Lemma do_title_ascii ud before b s :
  Forall (fun c => is_ascii c = true) s -> do_title ud before b s = Spec.title_runs b s.
Proof.
  intros H. revert before b. induction H as [|c s Hc _ IH]; intros before b; simpl; [reflexivity|].
  rewrite IH. unfold to_lower, to_title, is_cased. rewrite Hc. destruct b; reflexivity.
Qed.

Lemma title_ascii ud s :
  Forall (fun c => is_ascii c = true) s -> title ud s = Spec.title_letters s.
Proof. apply do_title_ascii. Qed.

Lemma title_runs_ascii b s :
  Forall (fun c => is_ascii c = true) s ->
  Forall (fun c => is_ascii c = true) (Spec.title_runs b s).
Proof.
  intros H. revert b. induction H as [|c s Hc _ IH]; intros b; simpl; constructor; [|apply IH].
  destruct b; [apply ascii_lower_ascii | apply ascii_upper_ascii]; exact Hc.
Qed.

Lemma title_runs_idem b s : Spec.title_runs b (Spec.title_runs b s) = Spec.title_runs b s.
Proof.
  revert b. induction s as [|c s IH]; intros b; simpl; [reflexivity|].
  destruct b.
  - rewrite ascii_lower_idem, ascii_lower_letter, IH. reflexivity.
  - rewrite ascii_upper_idem, ascii_upper_letter, IH. reflexivity.
Qed.

(** In title-cased text a letter is never followed by an upper-case letter. *)
Lemma title_runs_after_letter b s c0 c1 rest :
  Spec.title_runs b s = c0 :: c1 :: rest ->
  is_ascii_letter c0 = true -> is_ascii_upper c1 = false.
Proof.
  destruct s as [|x [|y s]]; simpl; try discriminate.
  intros [= <- <- _] H0.
  assert (is_ascii_letter x = true) as ->.
  { destruct b; [rewrite ascii_lower_letter in H0 | rewrite ascii_upper_letter in H0]; exact H0. }
  apply ascii_lower_not_upper.
Qed.

(** Every key and every label of the table starts with a letter followed
    by an upper-case letter. *)
Lemma table_shape k v :
  In (k, v) Spec.label_table ->
  (exists c0 c1 r, k = c0 :: c1 :: r /\ is_ascii_letter c0 = true /\ is_ascii_upper c1 = true)
  /\ (exists c0 c1 r, v = c0 :: c1 :: r /\ is_ascii_letter c0 = true /\ is_ascii_upper c1 = true).
Proof.
  unfold Spec.label_table. simpl In.
  intros H; repeat destruct H as [H|H]; try contradiction; injection H as <- <-;
    split; eexists _, _, _; (split; [reflexivity | split; reflexivity]).
Qed.

Lemma title_runs_not_key b s k v : In (k, v) Spec.label_table -> Spec.title_runs b s <> k.
Proof.
  intros Hin E. destruct (table_shape k v Hin) as [(c0 & c1 & r & -> & H0 & H1) _].
  rewrite (title_runs_after_letter b s c0 c1 r E H0) in H1. discriminate.
Qed.

Lemma title_runs_not_label b s k v : In (k, v) Spec.label_table -> Spec.title_runs b s <> v.
Proof.
  intros Hin E. destruct (table_shape k v Hin) as [_ (c0 & c1 & r & -> & H0 & H1)].
  rewrite (title_runs_after_letter b s c0 c1 r E H0) in H1. discriminate.
Qed.

(** ** The label mapper *)

(** The chain of comparisons is a look-up in the table, with the title
    case as the default. *)
Lemma map_clean_label_row ud norm :
  _map_clean_label ud norm =
  match Spec.table_row norm with
  | Some kv => snd kv
  | None => title ud norm
  end.
Proof.
  unfold _map_clean_label, Spec.table_row, Spec.label_table.
  cbn [List.find fst snd].
  repeat match goal with |- context [str_eqb norm ?k] => destruct (str_eqb norm k) end;
    reflexivity.
Qed.

Lemma table_row_Some norm kv :
  Spec.table_row norm = Some kv -> In kv Spec.label_table /\ fst kv = norm.
Proof.
  unfold Spec.table_row. intros H. apply find_some in H as [Hin Heq].
  apply str_eqb_eq in Heq. auto.
Qed.

Lemma table_row_key norm :
  Spec.is_table_key norm = false <-> Spec.table_row norm = None.
Proof.
  unfold Spec.is_table_key, Spec.table_row.
  induction Spec.label_table as [|kv l IH]; simpl; [tauto|].
  destruct (str_eqb norm (fst kv)); simpl; [split; discriminate | exact IH].
Qed.

Lemma not_key_title ud norm :
  (forall k v, In (k, v) Spec.label_table -> norm <> k) ->
  _map_clean_label ud norm = title ud norm.
Proof.
  intros H. rewrite map_clean_label_row.
  destruct (Spec.table_row norm) as [[k v]|] eqn:E; [|reflexivity].
  apply table_row_Some in E as [Hin Hk]. simpl in Hk. destruct (H k v Hin). auto.
Qed.

Lemma label_of_key ud k v : In (k, v) Spec.label_table -> _map_clean_label ud k = v.
Proof.
  unfold Spec.label_table. simpl In.
  intros H; repeat destruct H as [H|H]; try contradiction; injection H as <- <-; reflexivity.
Qed.

Lemma label_is_key ud k v : In (k, v) Spec.label_table -> _map_clean_label ud v = v.
Proof.
  unfold Spec.label_table. simpl In.
  intros H; repeat destruct H as [H|H]; try contradiction; injection H as <- <-; reflexivity.
Qed.

Lemma normalize_is_ascii ud s : Forall (fun c => is_ascii c = true) (_normalize ud s).
Proof.
  eapply List.Forall_impl; [|apply normalize_alphabet].
  intros c Hc. apply kept_is_ascii, alphabet_kept, Hc.
Qed.

(** C1: when the normalised token of a record is a key of the table, the
    label is the string that the table gives for this key (for both
    "ADHOC QUERIES" and "AD-HOC QUERIES" it is "AD-HOC QUERIES"); the
    comparison is exact, so a record gets a label of the table only if its
    normalised token is a key with this label. *)
Theorem table_lookup_exact (ud : UnicodeData) (s k v : pystr) :
  In (k, v) Spec.label_table ->
  (_normalize ud s = k -> _map_clean_label ud (_normalize ud s) = v)
  /\ (_map_clean_label ud (_normalize ud s) = v ->
      In (_normalize ud s, v) Spec.label_table).
Proof.
  intros Hin. split.
  - intros ->. apply (label_of_key ud k v Hin).
  - rewrite map_clean_label_row.
    destruct (Spec.table_row (_normalize ud s)) as [[k' v']|] eqn:E.
    + apply table_row_Some in E as [Hin' Hk]. simpl in *. intros <-. rewrite <- Hk. exact Hin'.
    + rewrite (title_ascii ud _ (normalize_is_ascii ud s)). intros Ht.
      destruct (title_runs_not_label _ _ k v Hin Ht).
Qed.

Lemma table_lookup_exact_witness :
  In (py "AIRLINES", py "AIRLINES") Spec.label_table
  /\ _map_clean_label ud_sample (_normalize ud_sample (py " airlines. ")) = py "AIRLINES".
Proof.
  assert (H : In (py "AIRLINES", py "AIRLINES") Spec.label_table)
    by (unfold Spec.label_table; simpl; tauto).
  split; [exact H|].
  apply (proj1 (table_lookup_exact ud_sample (py " airlines. ") _ _ H)). reflexivity.
Defined.

Lemma title_runs_length b s : length (Spec.title_runs b s) = length s.
Proof. revert b. induction s as [|c s IH]; intros b; simpl; [|rewrite IH]; reflexivity. Qed.

Lemma title_runs_lookup b s i c :
  s !! i = Some c ->
  Spec.title_runs b s !! i
  = Some (if match i with O => b | S _ => Spec.follows_letter s i end
          then ascii_lower c else ascii_upper c).
Proof.
  revert b i. induction s as [|x s IH]; intros b i; [destruct i; discriminate|].
  destruct i as [|j]; simpl.
  - intros [= ->]. reflexivity.
  - intros H. rewrite (IH _ _ H). destruct j; reflexivity.
Qed.

(** Where every character is a letter or a space, the runs of letters are
    the whitespace-separated words. *)
Lemma title_runs_words b s :
  Forall (fun c => is_ascii_letter c || (c =? 32) = true) s ->
  Spec.title_runs b s = Spec.title_words (negb b) s.
Proof.
  intros H. revert b. induction H as [|c s Hc _ IH]; intros b; simpl; [reflexivity|].
  rewrite IH. destruct b; simpl; do 2 f_equal;
    (destruct (is_ascii_letter c) eqn:E;
     [revert E; unfold_chars; intros E; symmetry; simpl; bool_to_prop; lia
     | simpl in Hc; apply N.eqb_eq in Hc; subst c; reflexivity]).
Qed.

(** C2 (counterexample): "x-ray" is normalised to "X-RAY", which is not
    a key; its label is "X-Ray", whereas capitalising the
    whitespace-separated words gives "X-ray". *)
Lemma fallback_title_counterexample :
  _normalize ud_sample (py "x-ray") = py "X-RAY"
  /\ Spec.is_table_key (py "X-RAY") = false
  /\ _map_clean_label ud_sample (py "X-RAY") = py "X-Ray"
  /\ Spec.title (py "X-RAY") = py "X-ray"
  /\ _map_clean_label ud_sample (_normalize ud_sample (py "x-ray"))
     <> Spec.title (_normalize ud_sample (py "x-ray")).
Proof. repeat split; try reflexivity. vm_compute. discriminate. Qed.

(** C2 (amended): the label of a normalised token that is not a key is
    its title case by runs of letters: it has the length of the token, a
    character that directly follows a letter is lower-cased and every
    other character is kept, so that a letter after a space, a hyphen or a
    digit stays a capital.  On a token of letters and spaces only this is
    the capitalisation of the whitespace-separated words. *)
Theorem fallback_title_letters (ud : UnicodeData) (s : pystr) :
  Spec.is_table_key (_normalize ud s) = false ->
  _map_clean_label ud (_normalize ud s) = Spec.title_letters (_normalize ud s)
  /\ length (_map_clean_label ud (_normalize ud s)) = length (_normalize ud s)
  /\ (forall i c, _normalize ud s !! i = Some c ->
        _map_clean_label ud (_normalize ud s) !! i
        = Some (if Spec.follows_letter (_normalize ud s) i then ascii_lower c else c))
  /\ (Forall (fun c => is_ascii_letter c || (c =? 32) = true) (_normalize ud s) ->
      _map_clean_label ud (_normalize ud s) = Spec.title (_normalize ud s)).
Proof.
  intros Hk. apply table_row_key in Hk.
  assert (E : _map_clean_label ud (_normalize ud s) = Spec.title_letters (_normalize ud s)).
  { rewrite map_clean_label_row, Hk. apply title_ascii, normalize_is_ascii. }
  rewrite E. split; [reflexivity|]. split; [apply title_runs_length|]. split.
  - intros i c Hi. unfold Spec.title_letters. rewrite (title_runs_lookup _ _ _ _ Hi).
    pose proof (normalize_alphabet ud s) as Ha.
    assert (Hc : Token.in_alphabet c = true).
    { rewrite List.Forall_forall in Ha. apply Ha. apply list_elem_of_In.
      eapply list_elem_of_lookup_2, Hi. }
    rewrite (alphabet_upper c Hc). destruct i; reflexivity.
  - intros Hl. apply (title_runs_words false _ Hl).
Qed.

Lemma fallback_title_letters_witness :
  Spec.is_table_key (_normalize ud_sample (py "Something else, 3d x-ray")) = false
  /\ _map_clean_label ud_sample (_normalize ud_sample (py "Something else, 3d x-ray"))
     = py "Something Else 3D X-Ray".
Proof.
  assert (H : Spec.is_table_key (_normalize ud_sample (py "Something else, 3d x-ray")) = false)
    by reflexivity.
  split; [exact H|].
  rewrite (proj1 (fallback_title_letters ud_sample (py "Something else, 3d x-ray") H)).
  reflexivity.
Defined.

(** C3 (counterexample): the label of "Ad Hoc Queries" is not
    "AD-HOC QUERIES". *)
Lemma ad_hoc_counterexample :
  _map_clean_label ud_sample (_normalize ud_sample (py "Ad Hoc Queries"))
  <> py "AD-HOC QUERIES".
Proof. vm_compute. discriminate. Qed.

(** C3 (amended): "Ad Hoc Queries" is normalised to "AD HOC QUERIES",
    which is not a key of the table, and its label is the title case
    "Ad Hoc Queries"; the spellings "Ad-Hoc Queries" and "Adhoc Queries"
    are the ones labelled "AD-HOC QUERIES". *)
Theorem ad_hoc_scenario (ud : UnicodeData) :
  _normalize ud (py "Ad Hoc Queries") = py "AD HOC QUERIES"
  /\ Spec.is_table_key (py "AD HOC QUERIES") = false
  /\ _map_clean_label ud (_normalize ud (py "Ad Hoc Queries")) = py "Ad Hoc Queries"
  /\ _map_clean_label ud (_normalize ud (py "Ad-Hoc Queries")) = py "AD-HOC QUERIES"
  /\ _map_clean_label ud (_normalize ud (py "Adhoc Queries")) = py "AD-HOC QUERIES".
Proof. repeat split; reflexivity. Qed.

(** C9 (counterexample): on the three characters A, U+0130, b the label
    mapper gives A, i, U+0307, b, and on these A, i, U+0307, B. *)
Lemma mapper_idempotent_counterexample :
  _map_clean_label ud_sample [65; 304; 98] = [65; 105; 775; 98]
  /\ _map_clean_label ud_sample [65; 105; 775; 98] = [65; 105; 775; 66]
  /\ _map_clean_label ud_sample (_map_clean_label ud_sample [65; 304; 98])
     <> _map_clean_label ud_sample [65; 304; 98].
Proof. repeat split; try reflexivity. vm_compute. discriminate. Qed.

(** The title case of an ASCII string that is not a key is a fixed point
    of the label mapper. *)
Lemma mapper_title_fixed (ud : UnicodeData) (s : pystr) :
  Forall (fun c => is_ascii c = true) s ->
  _map_clean_label ud (title ud s) = title ud s.
Proof.
  intros Ha. rewrite (title_ascii ud s Ha). unfold Spec.title_letters.
  rewrite not_key_title.
  - rewrite (title_ascii ud _ (title_runs_ascii false s Ha)). apply title_runs_idem.
  - intros k v Hin. apply (title_runs_not_key false s k v Hin).
Qed.

(** C9 (amended): on ASCII strings the label mapper is idempotent: a
    label of the table is a key that is mapped to itself, and the title
    case of an ASCII string is never a key and is its own title case. *)
Theorem mapper_idempotent_ascii (ud : UnicodeData) (s : pystr) :
  Forall (fun c => is_ascii c = true) s ->
  _map_clean_label ud (_map_clean_label ud s) = _map_clean_label ud s.
Proof.
  intros Ha. rewrite (map_clean_label_row ud s).
  destruct (Spec.table_row s) as [[k v]|] eqn:E.
  - apply table_row_Some in E as [Hin _]. apply (label_is_key ud k v Hin).
  - apply mapper_title_fixed, Ha.
Qed.

Lemma mapper_idempotent_ascii_witness :
  Forall (fun c => is_ascii c = true) (py "x-RAY 3d")
  /\ _map_clean_label ud_sample (_map_clean_label ud_sample (py "x-RAY 3d"))
     = _map_clean_label ud_sample (py "x-RAY 3d").
Proof.
  assert (H : Forall (fun c => is_ascii c = true) (py "x-RAY 3d")) by (repeat constructor).
  split; [exact H|]. apply (mapper_idempotent_ascii ud_sample (py "x-RAY 3d") H).
Defined.

(** ** The loop over the records *)

Lemma fold_append {A B} (f : A -> B) (l : list A) (acc : list B) :
  fold_left (fun out x => out ++ [f x]) l acc = acc ++ List.map f l.
Proof.
  revert acc. induction l as [|x l IH]; intros acc; simpl.
  - rewrite app_nil_r. reflexivity.
  - rewrite IH, <- app_assoc. reflexivity.
Qed.

Lemma lookup_map {A B} (f : A -> B) (l : list A) (i : nat) :
  List.map f l !! i = f <$> (l !! i).
Proof.
  revert i. induction l as [|x l IH]; intros [|i]; simpl; try reflexivity. apply IH.
Qed.

Lemma clean_loop_map (ud : UnicodeData) (raw_texts : list pystr) :
  clean_loop ud raw_texts
  = List.map (fun s => _map_clean_label ud (_normalize ud s)) raw_texts.
Proof.
  unfold clean_loop.
  apply (fold_append (fun s => _map_clean_label ud (_normalize ud s)) raw_texts []).
Qed.


(** ** The key filler *)

Local Open Scope Z_scope.

Lemma len_insert {A} (l : list A) (i : nat) (x : A) : len (<[i := x]> l) = len l.
Proof. unfold len. rewrite length_insert. reflexivity. Qed.

(** Under the guard of the loop the assignment is within bounds. *)
Lemma setitem_guarded {A} (l : list A) (idx n : Z) (v : A) :
  n <= len l -> (0 <=? idx) && (idx <? n) = true ->
  setitem l idx v = Ok (<[Z.to_nat idx := v]> l).
Proof.
  intros Hn Hg. apply andb_true_iff in Hg as [H0 H1].
  apply Z.leb_le in H0. apply Z.ltb_lt in H1.
  unfold setitem. destruct (Z.ltb_spec idx 0); [lia|].
  destruct (Z.leb_spec 0 idx); [|lia]. destruct (Z.ltb_spec idx (len l)); [|lia].
  reflexivity.
Qed.

Lemma inject_spec (n : Z) (items : list (Z * pystr)) (keys : list pystr) :
  n <= len keys ->
  exists keys',
    inject n items keys = Ok keys'
    /\ len keys' = len keys
    /\ forall i, 0 <= i < n ->
         keys' !! Z.to_nat i
         = match stored_last items i with
           | Some v => Some v
           | None => keys !! Z.to_nat i
           end.
Proof.
  revert keys. induction items as [|[idx val] rest IH]; intros keys Hn.
  - exists keys. repeat split. 
  - simpl inject. destruct ((0 <=? idx) && (idx <? n)) eqn:Hg.
    + rewrite (setitem_guarded keys idx n val Hn Hg). simpl result_bind.
      destruct (IH (<[Z.to_nat idx := val]> keys)) as (keys' & Hk & Hl & Hi).
      { rewrite len_insert. exact Hn. }
      exists keys'. split; [exact Hk|]. split; [rewrite Hl; apply len_insert|].
      intros i Hr. rewrite (Hi i Hr). simpl stored_last.
      destruct (stored_last rest i); [reflexivity|].
      apply andb_true_iff in Hg as [H0 H1]. apply Z.leb_le in H0. apply Z.ltb_lt in H1.
      destruct (Z.eqb_spec idx i) as [->|Hne].
      * apply list_lookup_insert_eq. unfold len in Hn. lia.
      * apply list_lookup_insert_ne. lia.
    + destruct (IH keys Hn) as (keys' & Hk & Hl & Hi).
      exists keys'. split; [exact Hk|]. split; [exact Hl|].
      intros i Hr. rewrite (Hi i Hr). simpl stored_last.
      destruct (stored_last rest i); [reflexivity|].
      destruct (Z.eqb_spec idx i) as [->|Hne]; [|reflexivity].
      apply andb_false_iff in Hg as [Hg|Hg]; [apply Z.leb_gt in Hg | apply Z.ltb_ge in Hg]; lia.
Qed.

(** The indices of [expected] are distinct, so the value stored last is
    the one that [expected] holds. *)
Lemma stored_last_expected i : stored_last expected i = expected_at i.
Proof.
  unfold expected_at, expected. cbn [stored_last List.find fst snd].
  repeat match goal with
         | |- context [Z.eqb ?a i] => destruct (Z.eqb_spec a i)
         end; try reflexivity; lia.
Qed.

Lemma expected_indices : List.map fst expected = [0; 2; 3; 7; 12; 17].
Proof. reflexivity. Qed.

Lemma len_fillers n : len (List.map key_filler (range n)) = Z.max 0 n.
Proof. unfold len, range. rewrite !length_map, length_seq. lia. Qed.

Lemma lookup_fillers n i :
  0 <= i < n -> List.map key_filler (range n) !! Z.to_nat i = Some (key_filler i).
Proof.
  intros Hr. unfold range. rewrite !lookup_map, lookup_seq_lt by lia.
  simpl. rewrite Z2Nat.id by lia. reflexivity.
Qed.

(** The key filler returns for every count, also a negative one. *)
Lemma make_test_keys_total (n : Z) : exists keys, _make_test_keys n = Ok keys.
Proof.
  destruct (inject_spec n expected (List.map key_filler (range n))) as (keys & Hk & _).
  - rewrite len_fillers. lia.
  - exists keys. exact Hk.
Qed.

(** The entry that row [i] gets, written out. *)
Lemma expected_or_filler (i : Z) :
  match expected_at i with
  | Some literal => literal
  | None => key_filler i
  end
  = match i with
    | 0 => py "alanapatcacsiciolilynnaonplppsatiyt"
    | 2 => py "alanapatcacsiciolilynansonplppssatiyt"
    | 3 => py "alancsdeelicllymonaodsmtiyt"
    | 7 => py "alancadeeliclmlslymonaodstiyt"
    | 12 => py "agalctcudugriclpltodprrariroststuuculur"
    | 17 => py "aiesinirlinerls"
    | _ => py "key_filler_" ++ py (pretty i)
    end.
Proof.
  unfold expected_at, expected, key_filler. cbn [List.find fst snd].
  repeat match goal with
         | |- context [Z.eqb ?a i] => destruct (Z.eqb_spec a i) as [<-|?]
         end; try reflexivity.
  destruct i as [|p|p]; [lia | | reflexivity].
  do 5 (try (destruct p as [p|p|]; try reflexivity; try lia)).
Qed.

(** C8: for a count [n >= 0] the key filler returns, without raising, a
    list of exactly [n] strings; the entry at an index among 0, 2, 3, 7, 12
    and 17 that is below [n] is the fixed literal of this index, the entry
    at any other index [i] is "key_filler_" followed by [i] in decimal; the
    fixed indices from [n] on are skipped. *)
Theorem make_test_keys_spec (n : Z) :
  0 <= n ->
  exists keys,
    _make_test_keys n = Ok keys
    /\ len keys = n
    /\ forall i, 0 <= i < n ->
         keys !! Z.to_nat i
         = Some (match i with
                 | 0 => py "alanapatcacsiciolilynnaonplppsatiyt"
                 | 2 => py "alanapatcacsiciolilynansonplppssatiyt"
                 | 3 => py "alancsdeelicllymonaodsmtiyt"
                 | 7 => py "alancadeeliclmlslymonaodstiyt"
                 | 12 => py "agalctcudugriclpltodprrariroststuuculur"
                 | 17 => py "aiesinirlinerls"
                 | _ => py "key_filler_" ++ py (pretty i)
                 end).
Proof.
  intros Hn. unfold _make_test_keys.
  destruct (inject_spec n expected (List.map key_filler (range n))) as (keys & Hk & Hl & Hi).
  { rewrite len_fillers. lia. }
  exists keys. split; [exact Hk|]. split.
  - rewrite Hl, len_fillers. lia.
  - intros i Hr. rewrite (Hi i Hr), stored_last_expected, (lookup_fillers n i Hr).
    rewrite <- expected_or_filler. destruct (expected_at i); reflexivity.
Qed.

Lemma make_test_keys_spec_witness :
  0 <= 20
  /\ exists keys,
       _make_test_keys 20 = Ok keys
       /\ len keys = 20
       /\ forall i, 0 <= i < 20 ->
            keys !! Z.to_nat i
            = Some (match i with
                    | 0 => py "alanapatcacsiciolilynnaonplppsatiyt"
                    | 2 => py "alanapatcacsiciolilynansonplppssatiyt"
                    | 3 => py "alancsdeelicllymonaodsmtiyt"
                    | 7 => py "alancadeeliclmlslymonaodstiyt"
                    | 12 => py "agalctcudugriclpltodprrariroststuuculur"
                    | 17 => py "aiesinirlinerls"
                    | _ => py "key_filler_" ++ py (pretty i)
                    end).
Proof. split; [lia | apply (make_test_keys_spec 20); lia]. Defined.

Example make_test_keys_19 :
  _make_test_keys 19
  = Ok [py "alanapatcacsiciolilynnaonplppsatiyt"; py "key_filler_1";
        py "alanapatcacsiciolilynansonplppssatiyt"; py "alancsdeelicllymonaodsmtiyt";
        py "key_filler_4"; py "key_filler_5"; py "key_filler_6";
        py "alancadeeliclmlslymonaodstiyt";
        py "key_filler_8"; py "key_filler_9"; py "key_filler_10"; py "key_filler_11";
        py "agalctcudugriclpltodprrariroststuuculur";
        py "key_filler_13"; py "key_filler_14"; py "key_filler_15"; py "key_filler_16";
        py "aiesinirlinerls"; py "key_filler_18"].
Proof. vm_compute. reflexivity. Qed.

Example make_test_keys_4 :
  _make_test_keys 4
  = Ok [py "alanapatcacsiciolilynnaonplppsatiyt"; py "key_filler_1";
        py "alanapatcacsiciolilynansonplppssatiyt"; py "alancsdeelicllymonaodsmtiyt"].
Proof. vm_compute. reflexivity. Qed.

Example make_test_keys_negative : _make_test_keys (-3) = Ok [].
Proof. reflexivity. Qed.

Local Close Scope Z_scope.

(** ** The entry point *)

Lemma fold_raise {A B} (f : result B -> A -> result B) (l : list A) (e : exn) :
  (forall x, f (Raise e) x = Raise e) -> fold_left f l (Raise e) = Raise e.
Proof. intros Hf. induction l as [|x l IH]; simpl; [reflexivity|]. rewrite Hf. exact IH. Qed.

(** On strings the loop over the values is the loop over the records. *)
Lemma clean_cells_strings (ud : UnicodeData) (raw_texts : list pystr) :
  clean_cells ud (List.map Str raw_texts) = Ok (clean_loop ud raw_texts).
Proof.
  unfold clean_cells, clean_loop.
  enough (H : forall acc : list pystr,
             fold_left
               (fun done s =>
                  result_bind done (fun cleaned =>
                  result_bind (normalize_value ud s) (fun norm =>
                  Ok (cleaned ++ [_map_clean_label ud norm]))))
               (List.map Str raw_texts) (Ok acc)
             = Ok (fold_left
                     (fun cleaned s =>
                        let norm := _normalize ud s in
                        cleaned ++ [_map_clean_label ud norm])
                     raw_texts acc)) by apply H.
  induction raw_texts as [|s l IH]; intros acc; simpl; [reflexivity|]. apply IH.
Qed.

(** A value that is not a string makes the loop raise. *)
Lemma clean_cells_missing (ud : UnicodeData) (raw_texts : list cell) :
  In Missing raw_texts -> clean_cells ud raw_texts = Raise AttributeError.
Proof.
  unfold clean_cells. intros Hin.
  enough (H : forall acc : list pystr,
             fold_left
               (fun done s =>
                  result_bind done (fun cleaned =>
                  result_bind (normalize_value ud s) (fun norm =>
                  Ok (cleaned ++ [_map_clean_label ud norm]))))
               raw_texts (Ok acc)
             = Raise AttributeError) by apply H.
  induction raw_texts as [|c l IH]; intros acc; [destruct Hin|].
  destruct Hin as [->|Hin]; simpl.
  - apply fold_raise. reflexivity.
  - destruct c as [text|]; simpl; [apply IH, Hin | apply fold_raise; reflexivity].
Qed.

Lemma cells_cases (raw_texts : list cell) :
  In Missing raw_texts \/ exists texts, raw_texts = List.map Str texts.
Proof.
  induction raw_texts as [|c l [IH|[texts ->]]].
  - right. exists []. reflexivity.
  - left. right. exact IH.
  - destruct c as [text|].
    + right. exists (text :: texts). reflexivity.
    + left. left. reflexivity.
Qed.

(** [main], step by step. *)
Lemma main_run (env : Env) (ud : UnicodeData)
    (input_path output_path : pystr) (fs : FS env) :
  main env ud input_path output_path fs
  = if os_path_exists env input_path fs
    then match input_records env input_path fs with
         | Raise e => (Raise e, fs)
         | Ok raw_texts =>
             match clean_cells ud raw_texts with
             | Raise e => (Raise e, fs)
             | Ok cleaned =>
                 match df_to_csv env (pd_DataFrame env (py "cleaned_text") cleaned)
                         output_path fs with
                 | (Raise e, fs1) => (Raise e, fs1)
                 | (Ok _, fs1) =>
                     match _make_test_keys (len raw_texts) with
                     | Raise e => (Raise e, fs1)
                     | Ok keys =>
                         df_to_csv env (pd_DataFrame env (py "key") keys)
                           (py "files/test.csv") fs1
                     end
                 end
             end
         end
    else (Raise (FileNotFoundError input_path), fs).
Proof.
  unfold main, input_records, input_frame, io_bind, io_read, io_pure, io_ret, io_raise,
    result_bind.
  destruct (os_path_exists env input_path fs); cbn [negb]; [|reflexivity].
  destruct (pd_read_csv env input_path fs) as [df|e1]; [|reflexivity].
  destruct (negb (existsb (str_eqb (py "raw_text")) (df_columns env df))).
  - destruct (pd_read_csv_names env input_path [py "raw_text"] fs) as [df2|e2];
      [|reflexivity].
    destruct (df_astype_str env df2 (py "raw_text")) as [raw|e3]; [|reflexivity].
    destruct (clean_cells ud raw) as [cleaned|e4]; [|reflexivity].
    destruct (df_to_csv env _ output_path fs) as [[[]|e5] fs1]; [|reflexivity].
    destruct (_make_test_keys (len raw)); reflexivity.
  - destruct (df_astype_str env df (py "raw_text")) as [raw|e3]; [|reflexivity].
    destruct (clean_cells ud raw) as [cleaned|e4]; [|reflexivity].
    destruct (df_to_csv env _ output_path fs) as [[[]|e5] fs1]; [|reflexivity].
    destruct (_make_test_keys (len raw)); reflexivity.
Qed.






(** ** Runs *)

Example scenario_airlines (ud : UnicodeData) :
  _normalize ud (py "airlines") = py "AIRLINES"
  /\ _map_clean_label ud (py "AIRLINES") = py "AIRLINES".
Proof. split; reflexivity. Qed.

Example scenario_something_else (ud : UnicodeData) :
  _normalize ud (py "Something Else Entirely") = py "SOMETHING ELSE ENTIRELY"
  /\ _map_clean_label ud (py "SOMETHING ELSE ENTIRELY") = py "Something Else Entirely".
Proof. split; reflexivity. Qed.

Example normalize_punctuation (ud : UnicodeData) :
  _normalize ud (py "  Ad-Hoc.. queries!?  ") = py "AD-HOC QUERIES".
Proof. reflexivity. Qed.

Example run_main :
  main Mem.env ud_sample (py "in.txt") (py "out.txt")
    (Mem.one_file (py "in.txt")
       (Mem.join_lines [py "raw_text"; py "Ad-Hoc Queries"; py "airlines."; py "x-ray 3d"]))
  = (Ok tt,
     <[py "files/test.csv" :=
         Mem.join_lines [py "key"; py "alanapatcacsiciolilynnaonplppsatiyt";
                         py "key_filler_1"; py "alanapatcacsiciolilynansonplppssatiyt"]]>
       (<[py "out.txt" :=
            Mem.join_lines [py "cleaned_text"; py "AD-HOC QUERIES"; py "AIRLINES"; py "X-Ray 3D"]]>
          (Mem.one_file (py "in.txt")
             (Mem.join_lines [py "raw_text"; py "Ad-Hoc Queries"; py "airlines."; py "x-ray 3d"])))).
Proof. vm_compute. reflexivity. Qed.

(** * Further properties *)

(** ** The normaliser and the case of letters *)

Lemma ascii_upper_kept c : Spec.kept (ascii_upper c) = Spec.kept c.
Proof.
  unfold ascii_upper. destruct (is_ascii_lower c) eqn:E; [|reflexivity].
  assert (Spec.kept c = true) as -> by (revert E; chars). revert E. chars.
Qed.

Lemma ascii_upper_period c : ascii_upper (Spec.period_to_space c) = Spec.period_to_space (ascii_upper c).
Proof.
  unfold Spec.period_to_space. destruct (N.eqb_spec c 46) as [->|Hc]; [reflexivity|].
  destruct (N.eqb_spec (ascii_upper c) 46) as [E|]; [|reflexivity].
  exfalso. revert E. unfold ascii_upper.
  destruct (is_ascii_lower c) eqn:El; [|exact Hc]. revert El. chars.
Qed.

Lemma lstrip_map_upper s : lstrip (List.map ascii_upper s) = List.map ascii_upper (lstrip s).
Proof.
  induction s as [|c s IH]; [reflexivity|]. simpl.
  rewrite ascii_upper_space. destruct (is_space c); [exact IH | reflexivity].
Qed.

Lemma strip_map_upper s : strip (List.map ascii_upper s) = List.map ascii_upper (strip s).
Proof.
  unfold strip, rstrip.
  rewrite lstrip_map_upper, <- List.map_rev, lstrip_map_upper, List.map_rev. reflexivity.
Qed.

Lemma collapse_map_upper s :
  Spec.collapse (List.map ascii_upper s) = List.map ascii_upper (Spec.collapse s).
Proof.
  induction s as [|c s IH]; [reflexivity|].
  change (List.map ascii_upper (c :: s)) with (ascii_upper c :: List.map ascii_upper s).
  change (Spec.collapse (ascii_upper c :: List.map ascii_upper s))
    with (if is_space (ascii_upper c)
          then match List.map ascii_upper s with
               | c' :: _ => if is_space c' then Spec.collapse (List.map ascii_upper s)
                            else 32 :: Spec.collapse (List.map ascii_upper s)
               | [] => [32]
               end
          else ascii_upper c :: Spec.collapse (List.map ascii_upper s)).
  change (Spec.collapse (c :: s))
    with (if is_space c
          then match s with
               | c' :: _ => if is_space c' then Spec.collapse s else 32 :: Spec.collapse s
               | [] => [32]
               end
          else c :: Spec.collapse s).
  rewrite ascii_upper_space, IH. destruct (is_space c); [|reflexivity].
  destruct s as [|c' s']; [reflexivity|].
  change (List.map ascii_upper (c' :: s')) with (ascii_upper c' :: List.map ascii_upper s').
  cbv beta iota. rewrite ascii_upper_space. destruct (is_space c'); reflexivity.
Qed.

Lemma filter_kept_map_upper s :
  List.filter Spec.kept (List.map ascii_upper s)
  = List.map ascii_upper (List.filter Spec.kept s).
Proof.
  induction s as [|c s IH]; [reflexivity|]. simpl.
  rewrite ascii_upper_kept, IH. destruct (Spec.kept c); reflexivity.
Qed.

(** Upper-casing may be done first: the normaliser sees a record only
    through its upper-cased characters. *)
Lemma normalize_of_upper s :
  Spec.normalize s = Spec.stripped (List.map ascii_upper s).
Proof.
  unfold Spec.normalize, Spec.stripped.
  rewrite <- strip_map_upper, <- collapse_map_upper, <- filter_kept_map_upper.
  rewrite !List.map_map. do 3 f_equal.
  apply List.map_ext. intros c. apply ascii_upper_period.
Qed.

(** X1: two records that differ only in the case of ASCII letters have
    the same normalised token. *)
Theorem normalize_case_insensitive (ud : UnicodeData) (s t : pystr) :
  List.map ascii_upper s = List.map ascii_upper t ->
  _normalize ud s = _normalize ud t.
Proof.
  intros H. rewrite !normalize_spec, !normalize_of_upper, H. reflexivity.
Qed.

Lemma normalize_case_insensitive_witness :
  List.map ascii_upper (py "AirLine companies") = List.map ascii_upper (py "aIRLINE Companies")
  /\ _normalize ud_sample (py "AirLine companies") = _normalize ud_sample (py "aIRLINE Companies").
Proof.
  assert (H : List.map ascii_upper (py "AirLine companies")
              = List.map ascii_upper (py "aIRLINE Companies")) by reflexivity.
  split; [exact H|].
  apply (normalize_case_insensitive ud_sample _ _ H).
Defined.

(** X2: the strings that the normaliser leaves unchanged are exactly the
    normalised tokens: upper-case letters, digits, hyphens and single
    spaces, with no space at either end. *)
Theorem normalize_fixed_points (ud : UnicodeData) (t : pystr) :
  _normalize ud t = t <-> Token.is_normalized t = true.
Proof.
  rewrite normalize_spec. split.
  - intros H. rewrite <- H. apply spec_normalize_normalized.
  - apply normalized_fixed.
Qed.

(** ** Characters that leave no trace *)

(** X3: a character other than an ASCII letter, an ASCII digit, a hyphen
    or a space is deleted wherever it stands, without leaving a space
    (this includes tabs and line breaks), except for the period, which
    counts as a space. *)
Theorem normalize_deletes (ud : UnicodeData) (a b : pystr) (c : N) :
  Spec.kept c = false ->
  _normalize ud (a ++ c :: b)
  = _normalize ud (a ++ (if c =? 46 then [32] else []) ++ b).
Proof.
  intros Hc. rewrite !normalize_spec. unfold Spec.normalize, Spec.stripped.
  do 3 f_equal. rewrite !List.map_app, !List.filter_app. f_equal.
  destruct (N.eqb_spec c 46) as [->|Hne]; [reflexivity|].
  change (List.map Spec.period_to_space (c :: b))
    with (Spec.period_to_space c :: List.map Spec.period_to_space b).
  assert (Spec.period_to_space c = c) as ->.
  { unfold Spec.period_to_space. destruct (N.eqb_spec c 46); [contradiction | reflexivity]. }
  simpl. rewrite Hc. reflexivity.
Qed.

Lemma normalize_deletes_witness :
  Spec.kept 9 = false
  /\ _normalize ud_sample (py "air" ++ 9 :: py "lines") = py "AIRLINES".
Proof.
  assert (H : Spec.kept 9 = false) by reflexivity.
  split; [exact H|].
  rewrite (normalize_deletes ud_sample (py "air") (py "lines") 9 H). reflexivity.
Defined.

(** ** Length *)

Lemma lstrip_length s : (length (lstrip s) <= length s)%nat.
Proof.
  induction s as [|c s IH]; simpl; [lia|]. destruct (is_space c); simpl; lia.
Qed.

Lemma strip_length s : (length (strip s) <= length s)%nat.
Proof.
  unfold strip, rstrip. rewrite length_rev.
  pose proof (lstrip_length (rev (lstrip s))) as H1. rewrite length_rev in H1.
  pose proof (lstrip_length s). lia.
Qed.

Lemma collapse_length s : (length (Spec.collapse s) <= length s)%nat.
Proof.
  induction s as [|c s IH]; [simpl; lia|].
  change (Spec.collapse (c :: s))
    with (if is_space c
          then match s with
               | c' :: _ => if is_space c' then Spec.collapse s else 32 :: Spec.collapse s
               | [] => [32]
               end
          else c :: Spec.collapse s).
  destruct (is_space c).
  - destruct s as [|c' s']; [simpl; lia|]. destruct (is_space c'); simpl in *; lia.
  - simpl in *. lia.
Qed.

(** X4: the normalised token is never longer than the record. *)
Theorem normalize_length (ud : UnicodeData) (s : pystr) :
  (length (_normalize ud s) <= length s)%nat.
Proof.
  rewrite normalize_spec. unfold Spec.normalize, Spec.stripped. rewrite length_map.
  etransitivity; [apply strip_length|].
  etransitivity; [apply collapse_length|].
  etransitivity; [apply List.filter_length_le|].
  rewrite length_map. lia.
Qed.

(** ** What the normaliser keeps *)

Lemma filter_nonspace_map_upper s :
  List.filter (fun c => negb (c =? 32)) (List.map ascii_upper s)
  = List.map ascii_upper (List.filter (fun c => negb (c =? 32)) s).
Proof.
  induction s as [|c s IH]; [reflexivity|]. simpl.
  rewrite ascii_upper_32, IH. destruct (c =? 32); reflexivity.
Qed.

Lemma filter_nonspace_lstrip s :
  Forall (fun c => Spec.kept c = true) s ->
  List.filter (fun c => negb (c =? 32)) (lstrip s) = List.filter (fun c => negb (c =? 32)) s.
Proof.
  induction 1 as [|c s Hc _ IH]; [reflexivity|]. simpl lstrip.
  destruct (is_space c) eqn:E; [|reflexivity].
  rewrite (kept_space_is_32 c Hc E). simpl. exact IH.
Qed.

Lemma filter_nonspace_strip s :
  Forall (fun c => Spec.kept c = true) s ->
  List.filter (fun c => negb (c =? 32)) (strip s) = List.filter (fun c => negb (c =? 32)) s.
Proof.
  intros H. unfold strip, rstrip.
  rewrite List.filter_rev, filter_nonspace_lstrip, <- List.filter_rev, rev_involutive.
  - apply filter_nonspace_lstrip, H.
  - apply List.Forall_rev, lstrip_Forall, H.
Qed.

Lemma filter_nonspace_collapse s :
  Forall (fun c => Spec.kept c = true) s ->
  List.filter (fun c => negb (c =? 32)) (Spec.collapse s)
  = List.filter (fun c => negb (c =? 32)) s.
Proof.
  induction 1 as [|c s Hc Hs IH]; [reflexivity|].
  change (Spec.collapse (c :: s))
    with (if is_space c
          then match s with
               | c' :: _ => if is_space c' then Spec.collapse s else 32 :: Spec.collapse s
               | [] => [32]
               end
          else c :: Spec.collapse s).
  destruct (is_space c) eqn:E.
  - rewrite (kept_space_is_32 c Hc E).
    destruct s as [|c' s']; [reflexivity|].
    destruct (is_space c'); simpl; simpl in IH; exact IH.
  - simpl. rewrite IH. reflexivity.
Qed.

Lemma filter_nonspace_kept s :
  List.filter (fun c => negb (c =? 32)) (List.filter Spec.kept (List.map Spec.period_to_space s))
  = List.filter (fun c => negb (Spec.removed c)) s.
Proof.
  induction s as [|c s IH]; [reflexivity|].
  change (List.map Spec.period_to_space (c :: s))
    with (Spec.period_to_space c :: List.map Spec.period_to_space s).
  destruct (N.eqb_spec c 46) as [->|Hne]; [simpl; exact IH|].
  assert (Spec.period_to_space c = c) as ->.
  { unfold Spec.period_to_space. destruct (N.eqb_spec c 46); [contradiction | reflexivity]. }
  simpl. destruct (Spec.kept c) eqn:Ek; simpl.
  - destruct (c =? 32) eqn:E32; simpl.
    + assert (Spec.removed c = true) as -> by (unfold Spec.removed; revert E32; chars).
      simpl. exact IH.
    + assert (Spec.removed c = false) as ->
        by (unfold Spec.removed; revert Ek E32; chars).
      simpl. rewrite IH. reflexivity.
  - assert (Spec.removed c = true) as -> by (unfold Spec.removed; revert Ek; chars).
    simpl. exact IH.
Qed.

Lemma spec_normalize_content s :
  List.filter (fun c => negb (c =? 32)) (Spec.normalize s)
  = List.map ascii_upper (List.filter (fun c => negb (Spec.removed c)) s).
Proof.
  unfold Spec.normalize, Spec.stripped.
  rewrite filter_nonspace_map_upper, filter_nonspace_strip, filter_nonspace_collapse,
    filter_nonspace_kept; [reflexivity | |].
  - apply filter_kept.
  - apply collapse_kept, filter_kept.
Qed.

(** X5: the normaliser neither drops, adds nor reorders letters, digits
    and hyphens: the token without its spaces is the upper-cased sequence
    of the letters, digits and hyphens of the record. *)
Theorem normalize_content (ud : UnicodeData) (s : pystr) :
  List.filter (fun c => negb (c =? 32)) (_normalize ud s)
  = List.map ascii_upper (List.filter (fun c => negb (Spec.removed c)) s).
Proof. rewrite normalize_spec. apply spec_normalize_content. Qed.

Lemma filter_nil_Forall {A} (f : A -> bool) (l : list A) :
  List.filter f l = [] -> Forall (fun x => f x = false) l.
Proof.
  induction l as [|x l IH]; simpl; [constructor|].
  destruct (f x) eqn:E; [discriminate|]. intros H. constructor; auto.
Qed.

(** X6: the normalised token is empty exactly when the record holds no
    ASCII letter, no ASCII digit and no hyphen. *)
Theorem normalize_empty_iff (ud : UnicodeData) (s : pystr) :
  _normalize ud s = [] <-> Forall (fun c => Spec.removed c = true) s.
Proof.
  rewrite normalize_spec. split.
  - intros H. pose proof (spec_normalize_content s) as Hc. rewrite H in Hc. simpl in Hc.
    symmetry in Hc. apply map_eq_nil, filter_nil_Forall in Hc.
    eapply List.Forall_impl; [|exact Hc]. intros c. apply negb_false_iff.
  - intros H. unfold Spec.normalize, Spec.stripped.
    destruct (collapse_all_space _ (removed_filtered s H)) as [-> | ->]; reflexivity.
Qed.

(** ** Margins *)

Lemma strip_collapse_cons c x :
  is_space c = true -> strip (Spec.collapse (c :: x)) = strip (Spec.collapse x).
Proof.
  intros Hc.
  change (Spec.collapse (c :: x))
    with (if is_space c
          then match x with
               | c' :: _ => if is_space c' then Spec.collapse x else 32 :: Spec.collapse x
               | [] => [32]
               end
          else c :: Spec.collapse x).
  rewrite Hc. destruct x as [|c' x']; [reflexivity|].
  destruct (is_space c'); reflexivity.
Qed.

Lemma strip_collapse_prefix sp x :
  Forall (fun c => is_space c = true) sp ->
  strip (Spec.collapse (sp ++ x)) = strip (Spec.collapse x).
Proof.
  induction 1 as [|c sp Hc _ IH]; [reflexivity|].
  simpl app. rewrite (strip_collapse_cons c _ Hc). exact IH.
Qed.

Lemma collapse_snoc_space x c :
  is_space c = true ->
  Spec.collapse (x ++ [c]) = Spec.collapse x \/ Spec.collapse (x ++ [c]) = Spec.collapse x ++ [32].
Proof.
  intros Hc. induction x as [|d x IH].
  - right. simpl. rewrite Hc. reflexivity.
  - change ((d :: x) ++ [c]) with (d :: (x ++ [c])).
    change (Spec.collapse (d :: (x ++ [c])))
      with (if is_space d
            then match x ++ [c] with
                 | c' :: _ => if is_space c' then Spec.collapse (x ++ [c])
                              else 32 :: Spec.collapse (x ++ [c])
                 | [] => [32]
                 end
            else d :: Spec.collapse (x ++ [c])).
    change (Spec.collapse (d :: x))
      with (if is_space d
            then match x with
                 | c' :: _ => if is_space c' then Spec.collapse x else 32 :: Spec.collapse x
                 | [] => [32]
                 end
            else d :: Spec.collapse x).
    destruct (is_space d).
    + destruct x as [|c' x'].
      * left. simpl. rewrite Hc. reflexivity.
      * change ((c' :: x') ++ [c]) with (c' :: (x' ++ [c])) in *. cbv beta iota.
        destruct (is_space c'); [exact IH|].
        destruct IH as [-> | ->]; [left | right]; reflexivity.
    + destruct IH as [-> | ->]; [left | right]; reflexivity.
Qed.

Lemma strip_snoc_space y c : is_space c = true -> strip (y ++ [c]) = strip y.
Proof.
  intros Hc. unfold strip. rewrite (lstrip_app_space y c Hc).
  destruct (lstrip y) as [|d l]; [reflexivity|].
  unfold rstrip. rewrite rev_app_distr. simpl rev at 1. simpl app.
  simpl lstrip. rewrite Hc. reflexivity.
Qed.

Lemma strip_collapse_snoc x c :
  is_space c = true -> strip (Spec.collapse (x ++ [c])) = strip (Spec.collapse x).
Proof.
  intros Hc. destruct (collapse_snoc_space x c Hc) as [-> | ->]; [reflexivity|].
  apply strip_snoc_space. reflexivity.
Qed.

Lemma strip_collapse_suffix sp x :
  Forall (fun c => is_space c = true) sp ->
  strip (Spec.collapse (x ++ sp)) = strip (Spec.collapse x).
Proof.
  intros H. revert x. induction H as [|c sp Hc _ IH]; intros x.
  - rewrite app_nil_r. reflexivity.
  - change (c :: sp) with ([c] ++ sp). rewrite app_assoc, IH.
    apply strip_collapse_snoc, Hc.
Qed.

(** X7: whatever stands before the first and after the last letter, digit
    or hyphen of a record (spaces, periods, punctuation, other characters)
    has no influence on the normalised token. *)
Theorem normalize_margins (ud : UnicodeData) (a s b : pystr) :
  Forall (fun c => Spec.removed c = true) a ->
  Forall (fun c => Spec.removed c = true) b ->
  _normalize ud (a ++ s ++ b) = _normalize ud s.
Proof.
  intros Ha Hb. rewrite !normalize_spec. unfold Spec.normalize, Spec.stripped.
  f_equal. rewrite !List.map_app, !List.filter_app.
  rewrite (strip_collapse_prefix _ _ (removed_filtered a Ha)).
  apply (strip_collapse_suffix _ _ (removed_filtered b Hb)).
Qed.

Lemma normalize_margins_witness :
  Forall (fun c => Spec.removed c = true) (py " ..(")
  /\ Forall (fun c => Spec.removed c = true) (py ")!  ")
  /\ _normalize ud_sample (py " ..(" ++ py "Ad-hoc  queries" ++ py ")!  ")
     = _normalize ud_sample (py "Ad-hoc  queries").
Proof.
  assert (Ha : Forall (fun c => Spec.removed c = true) (py " ..(")) by (repeat constructor).
  assert (Hb : Forall (fun c => Spec.removed c = true) (py ")!  ")) by (repeat constructor).
  split; [exact Ha|]. split; [exact Hb|].
  apply (normalize_margins ud_sample _ _ _ Ha Hb).
Defined.

(** ** Cleaning a label again *)

Lemma ascii_upper_lower c : ascii_upper (ascii_lower c) = ascii_upper c.
Proof.
  unfold ascii_lower. destruct (is_ascii_upper c) eqn:E; [|reflexivity].
  unfold ascii_upper.
  assert (is_ascii_lower (c + 32) = true) as -> by (revert E; chars).
  assert (is_ascii_lower c = false) as -> by (revert E; chars).
  revert E. unfold_chars. intros E. bool_to_prop. lia.
Qed.

Lemma map_upper_title_runs b s :
  List.map ascii_upper (Spec.title_runs b s) = List.map ascii_upper s.
Proof.
  revert b. induction s as [|c s IH]; intros b; [reflexivity|]. simpl.
  rewrite IH. destruct b; [rewrite ascii_upper_lower | rewrite ascii_upper_idem]; reflexivity.
Qed.

Lemma label_normalized k v : In (k, v) Spec.label_table -> Token.is_normalized v = true.
Proof.
  unfold Spec.label_table. simpl In.
  intros H; repeat destruct H as [H|H]; try contradiction; injection H as <- <-; reflexivity.
Qed.

(** The token of a record is a fixed point of [Spec.normalize]. *)
Lemma spec_normalize_twice s : Spec.normalize (Spec.normalize s) = Spec.normalize s.
Proof. apply normalized_fixed, spec_normalize_normalized. Qed.

(** The title case of a token is normalised back to the token. *)
Lemma normalize_title_runs b s :
  Spec.normalize (Spec.title_runs b (Spec.normalize s)) = Spec.normalize s.
Proof.
  rewrite normalize_of_upper, map_upper_title_runs, <- normalize_of_upper.
  apply spec_normalize_twice.
Qed.

(** X8: cleaning is idempotent: the label of a record, taken as a record
    itself, gets the same label, so cleaning the cleaned column again
    changes nothing. *)
Theorem clean_idempotent (ud : UnicodeData) (s : pystr) :
  _map_clean_label ud (_normalize ud (_map_clean_label ud (_normalize ud s)))
  = _map_clean_label ud (_normalize ud s).
Proof.
  rewrite (map_clean_label_row ud (_normalize ud s)).
  destruct (Spec.table_row (_normalize ud s)) as [[k v]|] eqn:E.
  - apply table_row_Some in E as [Hin _]. simpl.
    rewrite normalize_spec, (normalized_fixed v (label_normalized k v Hin)).
    apply (label_is_key ud k v Hin).
  - rewrite (title_ascii ud _ (normalize_is_ascii ud s)). unfold Spec.title_letters.
    rewrite (normalize_spec ud (Spec.title_runs _ _)), (normalize_spec ud s),
      normalize_title_runs, <- (normalize_spec ud s).
    rewrite map_clean_label_row, E.
    apply (title_ascii ud _ (normalize_is_ascii ud s)).
Qed.

(** X9: unless the token is a key of the table, normalising the label
    gives the token back: the label differs from the token in the case of
    its letters only. *)
Theorem label_normalizes_to_token (ud : UnicodeData) (s : pystr) :
  Spec.is_table_key (_normalize ud s) = false ->
  _normalize ud (_map_clean_label ud (_normalize ud s)) = _normalize ud s.
Proof.
  intros Hk. apply table_row_key in Hk.
  rewrite (map_clean_label_row ud (_normalize ud s)), Hk.
  rewrite (title_ascii ud _ (normalize_is_ascii ud s)). unfold Spec.title_letters.
  rewrite (normalize_spec ud (Spec.title_runs _ _)), (normalize_spec ud s).
  apply normalize_title_runs.
Qed.

Lemma label_normalizes_to_token_witness :
  Spec.is_table_key (_normalize ud_sample (py "big-data  analytics.")) = false
  /\ _normalize ud_sample (_map_clean_label ud_sample (_normalize ud_sample (py "big-data  analytics.")))
     = _normalize ud_sample (py "big-data  analytics.").
Proof.
  assert (H : Spec.is_table_key (_normalize ud_sample (py "big-data  analytics.")) = false)
    by reflexivity.
  split; [exact H|].
  apply (label_normalizes_to_token ud_sample _ H).
Defined.

(** ** Which records share a label *)

Lemma table_keys_of_label k1 k2 v :
  In (k1, v) Spec.label_table -> In (k2, v) Spec.label_table ->
  k1 = k2 \/ v = py "AD-HOC QUERIES".
Proof.
  unfold Spec.label_table. simpl In. intros H1 H2.
  repeat destruct H1 as [H1|H1]; try contradiction; injection H1 as <- <-;
    repeat destruct H2 as [H2|H2]; try contradiction;
    apply pair_equal_spec in H2 as [<- Hv];
    first [left; reflexivity | right; reflexivity | discriminate Hv].
Qed.

Lemma title_letters_upper_inj n1 n2 :
  Forall (fun c => Token.in_alphabet c = true) n1 ->
  Forall (fun c => Token.in_alphabet c = true) n2 ->
  Spec.title_letters n1 = Spec.title_letters n2 -> n1 = n2.
Proof.
  intros H1 H2 E. apply (f_equal (List.map ascii_upper)) in E.
  unfold Spec.title_letters in E. rewrite !map_upper_title_runs in E.
  rewrite (map_id_Forall ascii_upper n1), (map_id_Forall ascii_upper n2) in E; [exact E | |].
  - eapply List.Forall_impl; [|exact H2]. apply alphabet_upper.
  - eapply List.Forall_impl; [|exact H1]. apply alphabet_upper.
Qed.

(** X10: two records get the same label only if they have the same
    normalised token, the one exception being the label "AD-HOC QUERIES",
    which two tokens share. *)
Theorem same_label_same_token (ud : UnicodeData) (s1 s2 : pystr) :
  _map_clean_label ud (_normalize ud s1) = _map_clean_label ud (_normalize ud s2) ->
  _normalize ud s1 = _normalize ud s2
  \/ _map_clean_label ud (_normalize ud s1) = py "AD-HOC QUERIES".
Proof.
  rewrite !map_clean_label_row.
  destruct (Spec.table_row (_normalize ud s1)) as [[k1 v1]|] eqn:E1;
    destruct (Spec.table_row (_normalize ud s2)) as [[k2 v2]|] eqn:E2; simpl.
  - apply table_row_Some in E1 as [Hin1 Hk1]. apply table_row_Some in E2 as [Hin2 Hk2].
    simpl in *. intros ->. rewrite <- Hk1, <- Hk2.
    apply (table_keys_of_label k1 k2 v2 Hin1 Hin2).
  - apply table_row_Some in E1 as [Hin1 _].
    rewrite (title_ascii ud _ (normalize_is_ascii ud s2)). intros Hv.
    destruct (title_runs_not_label _ _ k1 v1 Hin1 (eq_sym Hv)).
  - apply table_row_Some in E2 as [Hin2 _].
    rewrite (title_ascii ud _ (normalize_is_ascii ud s1)). intros Hv.
    destruct (title_runs_not_label _ _ k2 v2 Hin2 Hv).
  - rewrite (title_ascii ud _ (normalize_is_ascii ud s1)),
      (title_ascii ud _ (normalize_is_ascii ud s2)).
    intros Ht. left.
    apply (title_letters_upper_inj _ _ (normalize_alphabet ud s1) (normalize_alphabet ud s2) Ht).
Qed.

Lemma same_label_same_token_witness :
  _map_clean_label ud_sample (_normalize ud_sample (py "x-ray."))
  = _map_clean_label ud_sample (_normalize ud_sample (py " X-RAY"))
  /\ (_normalize ud_sample (py "x-ray.") = _normalize ud_sample (py " X-RAY")
      \/ _map_clean_label ud_sample (_normalize ud_sample (py "x-ray.")) = py "AD-HOC QUERIES").
Proof.
  assert (H : _map_clean_label ud_sample (_normalize ud_sample (py "x-ray."))
              = _map_clean_label ud_sample (_normalize ud_sample (py " X-RAY")))
    by reflexivity.
  split; [exact H|].
  apply (same_label_same_token ud_sample _ _ H).
Defined.

(** ** The keys *)

Local Open Scope Z_scope.

Lemma make_test_keys_lookup (n : Z) :
  exists keys,
    _make_test_keys n = Ok keys
    /\ len keys = Z.max 0 n
    /\ forall i, 0 <= i < n -> keys !! Z.to_nat i = Some (key_at i).
Proof.
  unfold _make_test_keys.
  destruct (inject_spec n expected (List.map key_filler (range n))) as (keys & Hk & Hl & Hi).
  { rewrite len_fillers. lia. }
  exists keys. split; [exact Hk|]. split; [rewrite Hl; apply len_fillers|].
  intros i Hr. rewrite (Hi i Hr), stored_last_expected, (lookup_fillers n i Hr).
  unfold key_at. destruct (expected_at i); reflexivity.
Qed.

Lemma py_inj (a b : string) : py a = py b -> a = b.
Proof.
  unfold py. intros H.
  assert (Hl : list_ascii_of_string a = list_ascii_of_string b).
  { revert H. generalize (list_ascii_of_string a) (list_ascii_of_string b).
    induction l as [|x l IH]; intros [|y l']; simpl; try discriminate; [reflexivity|].
    intros [= Hxy Hll]. f_equal; [|apply IH, Hll].
    rewrite <- (ascii_N_embedding x), <- (ascii_N_embedding y), Hxy. reflexivity. }
  rewrite <- (string_of_list_ascii_of_string a), <- (string_of_list_ascii_of_string b), Hl.
  reflexivity.
Qed.

Lemma key_filler_inj i j : key_filler i = key_filler j -> i = j.
Proof.
  unfold key_filler. intros H. apply app_inv_head in H. apply py_inj in H.
  apply (inj pretty) in H. exact H.
Qed.

Lemma expected_at_In i v : expected_at i = Some v -> In (i, v) expected.
Proof.
  unfold expected_at.
  destruct (List.find (fun kv => fst kv =? i) expected) as [[j w]|] eqn:E; [|discriminate].
  simpl. intros [= ->]. apply find_some in E as [Hin Hj]. simpl in Hj.
  apply Z.eqb_eq in Hj. subst j. exact Hin.
Qed.

Lemma expected_literal_head i v : In (i, v) expected -> head v = Some 97%N.
Proof.
  unfold expected. simpl In.
  intros H; repeat destruct H as [H|H]; try contradiction; injection H as <- <-; reflexivity.
Qed.

Lemma expected_literals_distinct i j v :
  In (i, v) expected -> In (j, v) expected -> i = j.
Proof.
  unfold expected. simpl In. intros H1 H2.
  repeat destruct H1 as [H1|H1]; try contradiction; injection H1 as <- <-;
    repeat destruct H2 as [H2|H2]; try contradiction;
    apply pair_equal_spec in H2 as [<- Hv];
    first [reflexivity | discriminate Hv].
Qed.

Lemma key_at_inj i j : key_at i = key_at j -> i = j.
Proof.
  unfold key_at.
  destruct (expected_at i) as [v|] eqn:Ei; destruct (expected_at j) as [w|] eqn:Ej.
  - intros ->. apply expected_at_In in Ei, Ej. apply (expected_literals_distinct i j w Ei Ej).
  - intros ->. apply expected_at_In, expected_literal_head in Ei. discriminate Ei.
  - intros <-. apply expected_at_In, expected_literal_head in Ej. discriminate Ej.
  - apply key_filler_inj.
Qed.

(** X11: the keys are pairwise distinct: no literal of [expected] occurs
    twice, none has the form of a filler, and the fillers of two rows
    differ. *)
Theorem make_test_keys_NoDup (n : Z) :
  exists keys, _make_test_keys n = Ok keys /\ NoDup keys.
Proof.
  destruct (make_test_keys_lookup n) as (keys & Hk & Hl & Hi).
  exists keys. split; [exact Hk|]. apply NoDup_alt. intros i j x Hix Hjx.
  pose proof (lookup_lt_Some _ _ _ Hix) as Hi'. pose proof (lookup_lt_Some _ _ _ Hjx) as Hj'.
  unfold len in Hl.
  rewrite <- (Nat2Z.id i), (Hi (Z.of_nat i)) in Hix by lia.
  rewrite <- (Nat2Z.id j), (Hi (Z.of_nat j)) in Hjx by lia.
  assert (E : key_at (Z.of_nat i) = key_at (Z.of_nat j)) by congruence.
  apply key_at_inj in E. lia.
Qed.

(** X12: the key of a row does not depend on the number of rows: the
    keys for a count are the first keys for any larger count. *)
Theorem make_test_keys_prefix (n m : Z) :
  n <= m ->
  exists keys_n keys_m,
    _make_test_keys n = Ok keys_n
    /\ _make_test_keys m = Ok keys_m
    /\ keys_n = take (Z.to_nat n) keys_m.
Proof.
  intros Hnm.
  destruct (make_test_keys_lookup n) as (kn & Hkn & Hln & Hin).
  destruct (make_test_keys_lookup m) as (km & Hkm & Hlm & Him).
  exists kn, km. split; [exact Hkn|]. split; [exact Hkm|].
  unfold len in *. apply list_eq. intros i.
  destruct (decide (i < Z.to_nat n)%nat) as [Hlt|Hge].
  - rewrite lookup_take_lt by exact Hlt.
    rewrite <- (Nat2Z.id i), (Hin (Z.of_nat i)), (Him (Z.of_nat i)) by lia. reflexivity.
  - rewrite lookup_take_ge by lia. apply lookup_ge_None. lia.
Qed.

Lemma make_test_keys_prefix_witness :
  3 <= 20
  /\ exists keys_n keys_m,
       _make_test_keys 3 = Ok keys_n
       /\ _make_test_keys 20 = Ok keys_m
       /\ keys_n = take (Z.to_nat 3) keys_m.
Proof. split; [lia | apply (make_test_keys_prefix 3 20); lia]. Defined.

(** X13: for a count that is zero or negative the key filler returns the
    empty list and does not raise: the range is empty and the guard of the
    loop lets no assignment through. *)
Theorem make_test_keys_nonpositive (n : Z) :
  n <= 0 -> _make_test_keys n = Ok [].
Proof.
  intros Hn. destruct (make_test_keys_lookup n) as (keys & Hk & Hl & _).
  rewrite Hk. f_equal. unfold len in Hl. destruct keys; [reflexivity | simpl in Hl; lia].
Qed.

Lemma make_test_keys_nonpositive_witness :
  -3 <= 0 /\ _make_test_keys (-3) = Ok [].
Proof. split; [lia | apply (make_test_keys_nonpositive (-3)); lia]. Defined.

Local Close Scope Z_scope.

(** ** Runs of the entry point *)

Lemma make_test_keys_len (n : Z) (keys : list pystr) :
  _make_test_keys n = Ok keys -> len keys = Z.max 0 n.
Proof.
  intros H. destruct (make_test_keys_lookup n) as (keys' & Hk & Hl & _).
  rewrite Hk in H. injection H as <-. exact Hl.
Qed.

Lemma len_map_Str (texts : list pystr) : len (List.map Str texts) = len texts.
Proof. unfold len. rewrite length_map. reflexivity. Qed.

(** X14: a run of [main] on an existing input is determined by what the
    reads return.  If a read or the access to the column raises, [main]
    raises the same and leaves the file system as it was.  If a value of
    the column is not a string, [main] raises [AttributeError] and leaves
    the file system as it was.  Otherwise the labels of the records, in
    their order, are written to [output_path]; if this write raises, so
    does [main], and "files/test.csv" is not written; if it succeeds, the
    keys that the key filler gives for the number of records are written
    to "files/test.csv", and the outcome of this write is the outcome of
    [main]. *)
Theorem main_outcomes (env : Env) (ud : UnicodeData)
    (input_path output_path : pystr) (fs : FS env) :
  os_path_exists env input_path fs = true ->
  match input_records env input_path fs with
  | Raise e => main env ud input_path output_path fs = (Raise e, fs)
  | Ok raw_texts =>
      (In Missing raw_texts
       /\ main env ud input_path output_path fs = (Raise AttributeError, fs))
      \/ exists texts keys,
           raw_texts = List.map Str texts
           /\ _make_test_keys (len texts) = Ok keys
           /\ length keys = length texts
           /\ main env ud input_path output_path fs
              = match df_to_csv env
                        (pd_DataFrame env (py "cleaned_text")
                           (List.map (fun s => _map_clean_label ud (_normalize ud s)) texts))
                        output_path fs with
                | (Raise e, fs1) => (Raise e, fs1)
                | (Ok _, fs1) =>
                    df_to_csv env (pd_DataFrame env (py "key") keys) (py "files/test.csv") fs1
                end
  end.
Proof.
  intros Hex. rewrite main_run, Hex.
  destruct (input_records env input_path fs) as [raw|e1]; [|reflexivity].
  destruct (cells_cases raw) as [Hm|[texts ->]].
  - left. split; [exact Hm|]. rewrite (clean_cells_missing ud raw Hm). reflexivity.
  - right. destruct (make_test_keys_total (len texts)) as [keys Hk].
    exists texts, keys. split; [reflexivity|]. split; [exact Hk|]. split.
    + pose proof (make_test_keys_len _ _ Hk) as Hl. unfold len in Hl. lia.
    + rewrite clean_cells_strings, clean_loop_map, len_map_Str, Hk. reflexivity.
Qed.

Lemma main_outcomes_witness :
  os_path_exists Mem.env (py "files/input.txt") Mem.with_header = true
  /\ input_records Mem.env (py "files/input.txt") Mem.with_header
     = Ok [Str (py "Ad-Hoc Queries"); Str (py "airlines."); Str (py "x-ray 3d")]
  /\ main Mem.env ud_sample (py "files/input.txt") (py "files/output.txt") Mem.with_header
     = (Ok tt,
        <[py "files/test.csv" :=
            Mem.join_lines [py "key"; py "alanapatcacsiciolilynnaonplppsatiyt";
                            py "key_filler_1"; py "alanapatcacsiciolilynansonplppssatiyt"]]>
          (<[py "files/output.txt" :=
               Mem.join_lines [py "cleaned_text"; py "AD-HOC QUERIES"; py "AIRLINES";
                               py "X-Ray 3D"]]> Mem.with_header)).
Proof.
  assert (Hex : os_path_exists Mem.env (py "files/input.txt") Mem.with_header = true)
    by (vm_compute; reflexivity).
  assert (Hin : input_records Mem.env (py "files/input.txt") Mem.with_header
                = Ok [Str (py "Ad-Hoc Queries"); Str (py "airlines."); Str (py "x-ray 3d")])
    by (vm_compute; reflexivity).
  split; [exact Hex|]. split; [exact Hin|].
  pose proof (main_outcomes Mem.env ud_sample (py "files/input.txt") (py "files/output.txt")
                Mem.with_header Hex) as P.
  rewrite Hin in P. destruct P as [[Hm _]|(texts & keys & Hc & Hk & _ & Hmain)].
  - exfalso. simpl in Hm. destruct Hm as [Hm|[Hm|[Hm|[]]]]; discriminate Hm.
  - destruct texts as [|t1 [|t2 [|t3 [|t4 texts]]]]; try discriminate Hc.
    injection Hc as <- <- <-. rewrite Hmain.
    assert (Hk' : _make_test_keys 3
                  = Ok [py "alanapatcacsiciolilynnaonplppsatiyt"; py "key_filler_1";
                        py "alanapatcacsiciolilynansonplppssatiyt"])
      by (vm_compute; reflexivity).
    change (len [py "Ad-Hoc Queries"; py "airlines."; py "x-ray 3d"]) with 3%Z in Hk.
    rewrite Hk' in Hk. injection Hk as <-. vm_compute. reflexivity.
Defined.

(** X15: when the input has a column [raw_text] whose values are
    strings, these are the records: their labels, in order, are written to
    [output_path], and if that write succeeds the keys for this number of
    records, one for each record, are written to "files/test.csv". *)
Theorem main_with_header (env : Env) (ud : UnicodeData)
    (input_path output_path : pystr) (fs : FS env)
    (df : DataFrame env) (raw_texts : list pystr) :
  os_path_exists env input_path fs = true ->
  pd_read_csv env input_path fs = Ok df ->
  existsb (str_eqb (py "raw_text")) (df_columns env df) = true ->
  df_astype_str env df (py "raw_text") = Ok (List.map Str raw_texts) ->
  let cleaned := List.map (fun s => _map_clean_label ud (_normalize ud s)) raw_texts in
  (exists e fs1,
      df_to_csv env (pd_DataFrame env (py "cleaned_text") cleaned) output_path fs
      = (Raise e, fs1)
      /\ main env ud input_path output_path fs = (Raise e, fs1))
  \/ (exists keys fs1,
        df_to_csv env (pd_DataFrame env (py "cleaned_text") cleaned) output_path fs
        = (Ok tt, fs1)
        /\ _make_test_keys (len raw_texts) = Ok keys
        /\ length keys = length raw_texts
        /\ main env ud input_path output_path fs
           = df_to_csv env (pd_DataFrame env (py "key") keys) (py "files/test.csv") fs1).
Proof.
  intros Hex Hread Hcol Hraw cleaned.
  rewrite main_run, Hex. unfold input_records, input_frame.
  rewrite Hread. cbn [result_bind]. rewrite Hcol. cbn [negb result_bind]. rewrite Hraw.
  rewrite clean_cells_strings, clean_loop_map, len_map_Str. fold cleaned.
  destruct (make_test_keys_total (len raw_texts)) as [keys Hk]. rewrite Hk.
  destruct (df_to_csv env (pd_DataFrame env (py "cleaned_text") cleaned) output_path fs)
    as [[[]|e] fs1].
  - right. exists keys, fs1. split; [reflexivity|]. split; [reflexivity|].
    split; [|reflexivity].
    pose proof (make_test_keys_len _ _ Hk) as Hl. unfold len in Hl. lia.
  - left. exists e, fs1. split; reflexivity.
Qed.

Lemma main_with_header_witness :
  os_path_exists Mem.env (py "files/input.txt") Mem.with_header = true
  /\ pd_read_csv Mem.env (py "files/input.txt") Mem.with_header
     = Ok {| Mem.column := py "raw_text";
             Mem.cells := [Str (py "Ad-Hoc Queries"); Str (py "airlines.");
                           Str (py "x-ray 3d")] |}
  /\ exists keys fs1,
       df_to_csv Mem.env
         (pd_DataFrame Mem.env (py "cleaned_text")
            [py "AD-HOC QUERIES"; py "AIRLINES"; py "X-Ray 3D"])
         (py "files/output.txt") Mem.with_header = (Ok tt, fs1)
       /\ _make_test_keys 3 = Ok keys
       /\ length keys = 3%nat
       /\ main Mem.env ud_sample (py "files/input.txt") (py "files/output.txt") Mem.with_header
          = df_to_csv Mem.env (pd_DataFrame Mem.env (py "key") keys) (py "files/test.csv") fs1.
Proof.
  assert (Hex : os_path_exists Mem.env (py "files/input.txt") Mem.with_header = true)
    by (vm_compute; reflexivity).
  assert (Hread : pd_read_csv Mem.env (py "files/input.txt") Mem.with_header
                  = Ok {| Mem.column := py "raw_text";
                          Mem.cells := [Str (py "Ad-Hoc Queries"); Str (py "airlines.");
                                        Str (py "x-ray 3d")] |})
    by (vm_compute; reflexivity).
  split; [exact Hex|]. split; [exact Hread|].
  destruct (main_with_header Mem.env ud_sample (py "files/input.txt") (py "files/output.txt")
              Mem.with_header _ [py "Ad-Hoc Queries"; py "airlines."; py "x-ray 3d"]
              Hex Hread eq_refl eq_refl)
    as [(e & fs1 & H & _)|H].
  - discriminate H.
  - exact H.
Defined.

(** X16: when the input has no column [raw_text], it is read again as a
    single column without header, and the records are all its lines: the
    first line is a record too. *)
Theorem main_without_header (env : Env) (ud : UnicodeData)
    (input_path output_path : pystr) (fs : FS env)
    (df df2 : DataFrame env) (raw_texts : list pystr) :
  os_path_exists env input_path fs = true ->
  pd_read_csv env input_path fs = Ok df ->
  existsb (str_eqb (py "raw_text")) (df_columns env df) = false ->
  pd_read_csv_names env input_path [py "raw_text"] fs = Ok df2 ->
  df_astype_str env df2 (py "raw_text") = Ok (List.map Str raw_texts) ->
  let cleaned := List.map (fun s => _map_clean_label ud (_normalize ud s)) raw_texts in
  (exists e fs1,
      df_to_csv env (pd_DataFrame env (py "cleaned_text") cleaned) output_path fs
      = (Raise e, fs1)
      /\ main env ud input_path output_path fs = (Raise e, fs1))
  \/ (exists keys fs1,
        df_to_csv env (pd_DataFrame env (py "cleaned_text") cleaned) output_path fs
        = (Ok tt, fs1)
        /\ _make_test_keys (len raw_texts) = Ok keys
        /\ length keys = length raw_texts
        /\ main env ud input_path output_path fs
           = df_to_csv env (pd_DataFrame env (py "key") keys) (py "files/test.csv") fs1).
Proof.
  intros Hex Hread Hcol Hread2 Hraw cleaned.
  rewrite main_run, Hex. unfold input_records, input_frame.
  rewrite Hread. cbn [result_bind]. rewrite Hcol. cbn [negb]. rewrite Hread2.
  cbn [result_bind]. rewrite Hraw.
  rewrite clean_cells_strings, clean_loop_map, len_map_Str. fold cleaned.
  destruct (make_test_keys_total (len raw_texts)) as [keys Hk]. rewrite Hk.
  destruct (df_to_csv env (pd_DataFrame env (py "cleaned_text") cleaned) output_path fs)
    as [[[]|e] fs1].
  - right. exists keys, fs1. split; [reflexivity|]. split; [reflexivity|].
    split; [|reflexivity].
    pose proof (make_test_keys_len _ _ Hk) as Hl. unfold len in Hl. lia.
  - left. exists e, fs1. split; reflexivity.
Qed.

Lemma main_without_header_witness :
  os_path_exists Mem.env (py "files/input.txt") Mem.without_header = true
  /\ pd_read_csv Mem.env (py "files/input.txt") Mem.without_header
     = Ok {| Mem.column := py "Ad-Hoc Queries";
             Mem.cells := [Str (py "airlines."); Str (py "x-ray 3d")] |}
  /\ pd_read_csv_names Mem.env (py "files/input.txt") [py "raw_text"] Mem.without_header
     = Ok {| Mem.column := py "raw_text";
             Mem.cells := [Str (py "Ad-Hoc Queries"); Str (py "airlines.");
                           Str (py "x-ray 3d")] |}
  /\ exists keys fs1,
       df_to_csv Mem.env
         (pd_DataFrame Mem.env (py "cleaned_text")
            [py "AD-HOC QUERIES"; py "AIRLINES"; py "X-Ray 3D"])
         (py "files/output.txt") Mem.without_header = (Ok tt, fs1)
       /\ _make_test_keys 3 = Ok keys
       /\ length keys = 3%nat
       /\ main Mem.env ud_sample (py "files/input.txt") (py "files/output.txt")
            Mem.without_header
          = df_to_csv Mem.env (pd_DataFrame Mem.env (py "key") keys) (py "files/test.csv") fs1.
Proof.
  assert (Hex : os_path_exists Mem.env (py "files/input.txt") Mem.without_header = true)
    by (vm_compute; reflexivity).
  assert (Hread : pd_read_csv Mem.env (py "files/input.txt") Mem.without_header
                  = Ok {| Mem.column := py "Ad-Hoc Queries";
                          Mem.cells := [Str (py "airlines."); Str (py "x-ray 3d")] |})
    by (vm_compute; reflexivity).
  assert (Hread2 : pd_read_csv_names Mem.env (py "files/input.txt") [py "raw_text"]
                     Mem.without_header
                   = Ok {| Mem.column := py "raw_text";
                           Mem.cells := [Str (py "Ad-Hoc Queries"); Str (py "airlines.");
                                         Str (py "x-ray 3d")] |})
    by (vm_compute; reflexivity).
  split; [exact Hex|]. split; [exact Hread|]. split; [exact Hread2|].
  destruct (main_without_header Mem.env ud_sample (py "files/input.txt")
              (py "files/output.txt") Mem.without_header _ _
              [py "Ad-Hoc Queries"; py "airlines."; py "x-ray 3d"]
              Hex Hread eq_refl Hread2 eq_refl)
    as [(e & fs1 & H & _)|H].
  - discriminate H.
  - exact H.
Defined.

Example run_main_missing_value :
  main Mem.env ud_sample (py "files/input.txt") (py "files/output.txt") Mem.with_missing
  = (Raise AttributeError, Mem.with_missing).
Proof. vm_compute. reflexivity. Qed.

Example run_main_empty_input :
  main Mem.env ud_sample (py "files/input.txt") (py "files/output.txt") Mem.empty_input
  = (Raise (LibraryError (py "EmptyDataError")), Mem.empty_input).
Proof. vm_compute. reflexivity. Qed.

(** ** The form of a label *)

Lemma ascii_lower_space c : is_space (ascii_lower c) = is_space c.
Proof.
  unfold ascii_lower. destruct (is_ascii_upper c) eqn:E; [|reflexivity].
  assert (is_space c = false) as -> by (revert E; chars). revert E. chars.
Qed.

Lemma ascii_lower_32 c : (ascii_lower c =? 32) = (c =? 32).
Proof.
  unfold ascii_lower. destruct (is_ascii_upper c) eqn:E; [|reflexivity].
  revert E. unfold_chars. intros E. bool_to_prop.
  destruct (N.eqb_spec (c + 32) 32), (N.eqb_spec c 32); try reflexivity; lia.
Qed.

Lemma ascii_lower_kept c : Spec.kept (ascii_lower c) = Spec.kept c.
Proof.
  unfold ascii_lower. destruct (is_ascii_upper c) eqn:E; [|reflexivity].
  assert (Spec.kept c = true) as -> by (revert E; chars). revert E. chars.
Qed.

Lemma title_runs_kept b s :
  Forall (fun c => Spec.kept c = true) s ->
  Forall (fun c => Spec.kept c = true) (Spec.title_runs b s).
Proof.
  intros H. revert b. induction H as [|c s Hc _ IH]; intros b; simpl; constructor; [|apply IH].
  destruct b; [rewrite ascii_lower_kept | rewrite ascii_upper_kept]; exact Hc.
Qed.

Lemma single_spaced_cons2 x y r :
  Token.single_spaced (x :: y :: r)
  = negb ((x =? 32) && (y =? 32)) && Token.single_spaced (y :: r).
Proof. reflexivity. Qed.

Lemma title_runs_single_spaced b s :
  Token.single_spaced (Spec.title_runs b s) = Token.single_spaced s.
Proof.
  revert b. induction s as [|c s IH]; intros b; [reflexivity|].
  change (Spec.title_runs b (c :: s))
    with ((if b then ascii_lower c else ascii_upper c) :: Spec.title_runs (is_ascii_letter c) s).
  assert (E : ((if b then ascii_lower c else ascii_upper c) =? 32) = (c =? 32))
    by (destruct b; [apply ascii_lower_32 | apply ascii_upper_32]).
  destruct s as [|c' s']; [reflexivity|].
  specialize (IH (is_ascii_letter c)).
  change (Spec.title_runs (is_ascii_letter c) (c' :: s'))
    with ((if is_ascii_letter c then ascii_lower c' else ascii_upper c')
            :: Spec.title_runs (is_ascii_letter c') s') in *.
  assert (E' : ((if is_ascii_letter c then ascii_lower c' else ascii_upper c') =? 32)
               = (c' =? 32))
    by (destruct (is_ascii_letter c); [apply ascii_lower_32 | apply ascii_upper_32]).
  rewrite !single_spaced_cons2, E, E', IH. reflexivity.
Qed.

Lemma title_runs_last b s :
  match last (Spec.title_runs b s), last s with
  | Some x, Some c => is_space x = is_space c
  | None, None => True
  | _, _ => False
  end.
Proof.
  revert b. induction s as [|c s IH]; intros b; [exact I|].
  change (Spec.title_runs b (c :: s))
    with ((if b then ascii_lower c else ascii_upper c) :: Spec.title_runs (is_ascii_letter c) s).
  specialize (IH (is_ascii_letter c)).
  destruct s as [|c' s'].
  - simpl. destruct b; [apply ascii_lower_space | apply ascii_upper_space].
  - change (Spec.title_runs (is_ascii_letter c) (c' :: s'))
      with ((if is_ascii_letter c then ascii_lower c' else ascii_upper c')
              :: Spec.title_runs (is_ascii_letter c') s') in *.
    exact IH.
Qed.

Lemma title_runs_trimmed s :
  Token.trimmed (Spec.title_runs false s) = Token.trimmed s.
Proof.
  unfold Token.trimmed. pose proof (title_runs_last false s) as Hl.
  f_equal.
  - destruct s as [|c s]; [reflexivity|]. simpl. rewrite ascii_upper_space. reflexivity.
  - destruct (last (Spec.title_runs false s)), (last s); try contradiction; [|reflexivity].
    rewrite Hl. reflexivity.
Qed.

(** X17: every label is made of ASCII letters, ASCII digits, hyphens and
    single spaces, and neither starts nor ends with a space. *)
Theorem label_form (ud : UnicodeData) (s : pystr) :
  Forall (fun c => Spec.kept c = true) (_map_clean_label ud (_normalize ud s))
  /\ Token.single_spaced (_map_clean_label ud (_normalize ud s)) = true
  /\ Token.trimmed (_map_clean_label ud (_normalize ud s)) = true.
Proof.
  rewrite map_clean_label_row.
  destruct (Spec.table_row (_normalize ud s)) as [[k v]|] eqn:E.
  - apply table_row_Some in E as [Hin _]. simpl.
    pose proof (label_normalized k v Hin) as Hn. unfold Token.is_normalized in Hn.
    apply andb_true_iff in Hn as [Hn Ht]. apply andb_true_iff in Hn as [Ha Hs].
    split; [|split; assumption].
    apply forallb_Forall_true in Ha. eapply List.Forall_impl; [|exact Ha]. apply alphabet_kept.
  - rewrite (title_ascii ud _ (normalize_is_ascii ud s)). unfold Spec.title_letters.
    rewrite title_runs_single_spaced, title_runs_trimmed, normalize_spec.
    pose proof (spec_normalize_normalized s) as Hn. unfold Token.is_normalized in Hn.
    apply andb_true_iff in Hn as [Hn Ht]. apply andb_true_iff in Hn as [Ha Hs].
    split; [|split; assumption].
    apply title_runs_kept. apply forallb_Forall_true in Ha.
    eapply List.Forall_impl; [|exact Ha]. apply alphabet_kept.
Qed.
